(** * Comment-preserving formatters for JSONC and YAML

    A shallow embedding of [.github/scripts/format_jsonc.py] and
    [.github/scripts/format_yaml.py].

    Python [str] values are sequences of Unicode code points; they are
    modelled as [list N].  Dictionaries are [gmap]s keyed by such texts.
    The in-place rewriting of files is modelled by a small state-and-exception
    monad over a world made of a file store, the log of the calls made to the
    external (de)serialisation library and the standard output.  The file
    store holds, for every file, the text that [read_text] returns.  The
    libraries [commentjson] and [ruamel.yaml] are parameters of the
    formatters; reference instances on small fragments of JSON and YAML are
    used to run them on concrete files. *)

From Stdlib Require Import NArith Ascii String.
From stdpp Require Import base option list gmap strings fin_maps.

Local Open Scope N_scope.
Local Open Scope list_scope.

(** ** Python strings *)

Module Py.

Abbreviation char := N (only parsing).
Abbreviation text := (list N) (only parsing).

(** An ASCII literal as a text.  In a literal the apostrophe stands for the
    double quote (code point 34), so that JSON fragments can be written
    inline. *)
Definition str (s : string) : text :=
  map (fun a => let c := N_of_ascii a in if c =? 39 then 34 else c)
      (list_ascii_of_string s).

Definition LF : char := 10.
Definition CR : char := 13.
Definition DQUOTE : char := 34.
Definition HASH : char := 35.
Definition DOT : char := 46.
Definition SLASH : char := 47.
Definition COLON : char := 58.
Definition BACKSLASH : char := 92.
Definition LBRACE : char := 123.
Definition RBRACE : char := 125.
Definition SPACE : char := 32.

(** The text of a file made of the given lines, each ended by a line feed. *)
Definition file_of (ls : list text) : text :=
  concat (map (fun l => l ++ [LF]) ls).

(** [str.isspace] on one code point: the characters that [str.strip] removes
    and that the [\s] class of [re] matches on [str] patterns. *)
Definition isspace (c : char) : bool :=
  ((9 <=? c) && (c <=? 13)) || ((28 <=? c) && (c <=? 32))
  || (c =? 133) || (c =? 160) || (c =? 5760)
  || ((8192 <=? c) && (c <=? 8202))
  || (c =? 8232) || (c =? 8233) || (c =? 8239) || (c =? 8287) || (c =? 12288).

(** The line boundaries of [str.splitlines] (a CR LF pair is one boundary). *)
Definition is_linebreak (c : char) : bool :=
  ((10 <=? c) && (c <=? 13)) || ((28 <=? c) && (c <=? 30))
  || (c =? 133) || (c =? 8232) || (c =? 8233).

(** [s.lstrip()] *)
Fixpoint lstrip (s : text) : text :=
  match s with
  | [] => []
  | c :: s' => if isspace c then lstrip s' else s
  end.

(** [s.rstrip()] *)
Fixpoint rstrip (s : text) : text :=
  match s with
  | [] => []
  | c :: s' =>
      match rstrip s' with
      | [] => if isspace c then [] else [c]
      | r => c :: r
      end
  end.

(** [s.strip()] *)
Definition strip (s : text) : text := rstrip (lstrip s).

(** [s.startswith(p)] *)
Fixpoint startswith (s p : text) {struct p} : bool :=
  match p, s with
  | [], _ => true
  | _ :: _, [] => false
  | a :: p', b :: s' => (a =? b) && startswith s' p'
  end.

(** [s.endswith(p)] *)
Definition endswith (s p : text) : bool := startswith (rev s) (rev p).

(** [c in s] for a one-character needle *)
Definition contains (c : char) (s : text) : bool := existsb (N.eqb c) s.

(** [sep.join(ls)] *)
Fixpoint join (sep : text) (ls : list text) : text :=
  match ls with
  | [] => []
  | [l] => l
  | l :: ls' => l ++ sep ++ join sep ls'
  end.

(** [s.splitlines()]: [cur] is the line being read.  A final line without a
    boundary is kept when it is not empty; no empty line follows a final
    boundary. *)
Fixpoint splitlines_from (cur : text) (s : text) : list text :=
  match s with
  | [] => match cur with [] => [] | _ => [cur] end
  | c :: s' =>
      if is_linebreak c then
        match s' with
        | c' :: s'' =>
            if (c =? CR) && (c' =? LF)
            then cur :: splitlines_from [] s''
            else cur :: splitlines_from [] s'
        | [] => [cur]
        end
      else splitlines_from (cur ++ [c]) s'
  end.

Definition splitlines (s : text) : list text := splitlines_from [] s.

(** The characters of [s] before the first occurrence of [c] (all of [s]
    when there is none): [s[: s.index(c)]] when [c] occurs in [s]. *)
Fixpoint before (c : char) (s : text) : text :=
  match s with
  | [] => []
  | x :: s' => if x =? c then [] else x :: before c s'
  end.

(** Truth value of a [str]: non-empty. *)
Definition nonempty (s : text) : bool :=
  match s with [] => false | _ => true end.

(** Truth value of a [str | None]. *)
Definition truthy (o : option text) : bool :=
  match o with Some s => nonempty s | None => false end.

#[global] Arguments startswith : simpl never.
#[global] Arguments endswith : simpl never.
#[global] Arguments strip : simpl never.
#[global] Arguments isspace : simpl never.
#[global] Arguments is_linebreak : simpl never.

End Py.

Import Py.

(** ** Files, external calls and exceptions *)

Module IO.

Abbreviation path := (list N) (only parsing).

(** A call made to the external (de)serialisation library. *)
Inductive call :=
  | CallLoad (input : text)
  | CallDump (output : text).

(** The world a script runs in: the decoded text of every existing file,
    the calls made to the library so far (oldest first) and the lines
    printed so far (oldest first). *)
Record world := World {
  files : gmap text text;
  calls : list call;
  stdout : list text
}.

(** A computation returns a value or raises ([None]); the effects performed
    before an exception was raised are kept. *)
Definition io (A : Type) : Type := world -> world * option A.

Definition ret {A} (a : A) : io A := fun w => (w, Some a).

Definition raise {A} : io A := fun w => (w, None).

Definition bind {A B} (m : io A) (k : A -> io B) : io B :=
  fun w =>
    match m w with
    | (w', Some a) => k a w'
    | (w', None) => (w', None)
    end.

(** [path.read_text()]: raises when the file does not exist. *)
Definition read_text (p : path) : io text :=
  fun w =>
    match files w !! p with
    | Some t => (w, Some t)
    | None => (w, None)
    end.

(** [path.write_text(t)] *)
Definition write_text (p : path) (t : text) : io unit :=
  fun w => (World (<[p := t]> (files w)) (calls w) (stdout w), Some tt).

Definition log_call (c : call) : io unit :=
  fun w => (World (files w) (calls w ++ [c]) (stdout w), Some tt).

(** [print(t)] *)
Definition print (t : text) : io unit :=
  fun w => (World (files w) (calls w) (stdout w ++ [t]), Some tt).

(** [try: m / except Exception: ...]: whether [m] raised. *)
Definition try_except (m : io unit) : io bool :=
  fun w =>
    match m w with
    | (w', Some _) => (w', Some false)
    | (w', None) => (w', Some true)
    end.

(** [m[0]]-like accesses raise [IndexError] on [None]. *)
Definition or_raise {A} (o : option A) : io A :=
  match o with Some a => ret a | None => raise end.

End IO.

Import IO.

Declare Scope io_scope.
Delimit Scope io_scope with io.
Notation "'let*' x ':=' m 'in' k" := (bind m (fun x => k))
  (at level 10, x name, m at level 100, k at level 200) : io_scope.
Local Open Scope io_scope.

(** ** [format_jsonc.py] *)

Module Jsonc.

(** [KEY_RE]: optional whitespace, a double quote, one or more characters
    other than the double quote, a double quote and a colon, anchored at the
    start.  [KEY_RE_match s] is [KEY_RE.match(s)], returning group 1 (the
    characters between the quotes).  The pattern is deterministic:
    the whitespace run ends at the first non-space character, which must be
    a quote, and the key runs to the next quote, which a colon must follow. *)
Definition KEY_RE_match (s : text) : option text :=
  match lstrip s with
  | q :: rest =>
      if q =? DQUOTE then
        let key := before DQUOTE rest in
        match key, drop (length key) rest with
        | _ :: _, q' :: c :: _ =>
            if (q' =? DQUOTE) && (c =? COLON) then Some key else None
        | _, _ => None
        end
      else None
  | [] => None
  end.

(** The loop of [split_content_and_comment]: [i] is the index of the
    character being read, [rest] the characters from [i] on. *)
Fixpoint scan_line (line : text) (i : nat) (rest : text)
    (in_string escaped : bool) : text * option text :=
  match rest with
  | [] => (rstrip line, None)
  | ch :: rest' =>
      if (ch =? DQUOTE) && negb escaped then
        scan_line line (S i) rest' (negb in_string) false
      else if (ch =? BACKSLASH) && negb escaped then
        scan_line line (S i) rest' in_string true
      else if negb in_string && (ch =? SLASH)
              && match line !! S i with
                 | Some c => c =? SLASH
                 | None => false
                 end
      then (rstrip (take i line), Some (strip (drop i line)))
      else scan_line line (S i) rest' in_string false
  end.

Definition split_content_and_comment (line : text) : text * option text :=
  scan_line line 0 line false false.

(** The state of the loop of [extract_comments]. *)
Record extract_state := ExtractState {
  top : list text;
  leading : gmap text (list text);
  inline : gmap text text;
  cur_comments : list text;
  path_stack : list text;
  in_obj : bool
}.

Definition extract_init : extract_state :=
  ExtractState [] ∅ ∅ [] [] false.

(** [full_path(key)] for a key (the keys that [KEY_RE] captures are not
    empty): the stack and the key joined by dots. *)
Definition full_path (stack : list text) (key : text) : text :=
  join [DOT] (stack ++ (if nonempty key then [key] else [])).

(** One iteration of [for line in lines] in [extract_comments]. *)
Definition extract_step (st : extract_state) (line : text) : extract_state :=
  let '(content, comment) := split_content_and_comment line in
  if negb (nonempty content) then
    if negb (in_obj st) then
      ExtractState (top st ++ [rstrip line]) (leading st) (inline st)
                   (cur_comments st) (path_stack st) (in_obj st)
    else
      ExtractState (top st) (leading st) (inline st)
                   (cur_comments st ++ [strip line]) (path_stack st) (in_obj st)
  else if startswith content [LBRACE] then
    ExtractState (top st) (leading st) (inline st)
                 (cur_comments st) (path_stack st) true
  else if startswith content [RBRACE] then
    let cur :=
      match comment with
      | Some c => if nonempty c then cur_comments st ++ [c] else cur_comments st
      | None => cur_comments st
      end in
    ExtractState (top st) (leading st) (inline st)
                 cur (removelast (path_stack st)) (in_obj st)
  else
    match KEY_RE_match content with
    | Some key =>
        let fp := full_path (path_stack st) key in
        let '(leading', cur) :=
          match cur_comments st with
          | [] => (leading st, [])
          | _ :: _ => (<[fp := cur_comments st]> (leading st), [])
          end in
        let inline' :=
          match comment with
          | Some c => if nonempty c then <[fp := c]> (inline st) else inline st
          | None => inline st
          end in
        let stack' :=
          if contains LBRACE content then path_stack st ++ [key]
          else path_stack st in
        ExtractState (top st) leading' inline' cur stack' (in_obj st)
    | None =>
        match comment with
        | Some c =>
            if nonempty c then
              ExtractState (top st) (leading st) (inline st)
                           (cur_comments st ++ [c]) (path_stack st) (in_obj st)
            else st
        | None => st
        end
    end.

(** [extract_comments(lines)]: returns [top, leading, inline, bottom], in
    the order of the [return] statement (which is the order in which
    [format_jsonc_file] unpacks it). *)
Definition extract_comments (lines : list text)
  : list text * gmap text (list text) * gmap text text * list text :=
  let st := fold_left extract_step lines extract_init in
  (top st, leading st, inline st, cur_comments st).

(** The external library [commentjson], taken as a parameter: [loads]
    parses a text ([None] when it raises [JSONLibraryException]),
    [is_true] is the Python truth value of the parsed data, and
    [dumps_indent2 d] is [commentjson.dumps(d, indent=2)]. *)
Class JsonLib := {
  value : Type;
  loads : text -> option value;
  is_true : value -> bool;
  dumps_indent2 : value -> text
}.

(** The state of the reinjection loop of [format_jsonc_file]. *)
Definition reinject_state : Type := list text * list text.

(** One iteration of [for line in formatted[1:-1]]. *)
Definition reinject_step (leading : gmap text (list text))
    (inline : gmap text text) (st : reinject_state) (line : text)
  : reinject_state :=
  let '(out_lines, stack) := st in
  let stripped := strip line in
  if startswith stripped [RBRACE] then
    (out_lines ++ [line], removelast stack)
  else
    match KEY_RE_match line with
    | Some key =>
        let fp := join [DOT] (stack ++ [key]) in
        let indent := before DQUOTE line in
        let out1 :=
          match leading !! fp with
          | Some cs => out_lines ++ map (fun c => indent ++ strip c) cs
          | None => out_lines
          end in
        let out2 :=
          match inline !! fp with
          | Some c => out1 ++ [line ++ [SPACE] ++ c]
          | None => out1 ++ [line]
          end in
        (out2, if endswith (strip line) [LBRACE] then stack ++ [key] else stack)
    | None => (out_lines ++ [line], stack)
    end.

(** The lines written at the end of [format_jsonc_file], from the comment
    index and the lines of the canonical text (which are not empty). *)
Definition reinject (top : list text) (leading : gmap text (list text))
    (inline : gmap text text) (bottom : list text)
    (opening closing : text) (formatted : list text) : list text :=
  let middle := removelast (tail formatted) in
  let '(out_lines, _) :=
    fold_left (reinject_step leading inline) middle (top ++ [opening], []) in
  let out_lines :=
    if decide (1 < length formatted)%nat then out_lines ++ [closing]
    else out_lines in
  let out_lines := out_lines ++ bottom in
  List.filter (fun ln => nonempty (strip ln)) out_lines.

(** The lines kept by the two pass-through branches. *)
Definition trimmed_lines (lines : list text) : list text :=
  map (fun ln => rstrip (lstrip ln))
      (List.filter (fun ln => nonempty (strip ln)) lines).

Section Format.

Context {lib : JsonLib}.

Definition call_loads (content : text) : io value :=
  let* _ := log_call (CallLoad content) in
  or_raise (loads content).

Definition call_dumps (data : value) : io text :=
  let out := dumps_indent2 data in
  let* _ := log_call (CallDump out) in
  ret out.

(** [format_jsonc_file(path)] *)
Definition format_jsonc_file (p : path) : io unit :=
  let* text0 := read_text p in
  let lines := map (fun ln => ln ++ [LF]) (splitlines text0) in
  let '(top, leading, inline, bottom) := extract_comments lines in
  let non_empty_lines := List.filter (fun ln => nonempty (strip ln)) lines in
  let non_comment_lines :=
    List.filter (fun ln => negb (startswith (strip ln) [SLASH; SLASH]))
                non_empty_lines in
  match non_comment_lines with
  | [] => write_text p (join [LF] (trimmed_lines lines) ++ [LF])
  | _ :: _ =>
      let* content := read_text p in
      let* data := call_loads content in
      if negb (is_true data) then
        write_text p (join [LF] (trimmed_lines lines) ++ [LF])
      else
        let* dumped := call_dumps data in
        let formatted := splitlines dumped in
        let* opening := or_raise (head formatted) in
        let* closing := or_raise (last formatted) in
        let out_lines :=
          reinject top leading inline bottom opening closing formatted in
        write_text p (join [LF] out_lines ++ [LF])
  end.

(** The loop of [main]: the paths for which formatting raised, in order. *)
Fixpoint main_loop (argv : list path) (failed_files : list path)
  : io (list path) :=
  match argv with
  | [] => ret failed_files
  | p :: argv' =>
      let* raised := try_except (format_jsonc_file p) in
      main_loop argv' (if raised then failed_files ++ [p] else failed_files)
  end.

Fixpoint print_all (ls : list text) : io unit :=
  match ls with
  | [] => ret tt
  | l :: ls' => let* _ := print l in print_all ls'
  end.

(** [main(argv)]: the completion status. *)
Definition main (argv : list path) : io nat :=
  let* failed_files := main_loop argv [] in
  match failed_files with
  | _ :: _ =>
      let* _ := print (str "Auto-format JSON(C) files failed for:") in
      let* _ := print_all (map (fun f => [SPACE; SPACE] ++ f) failed_files) in
      ret 1%nat
  | [] => ret 0%nat
  end.

End Format.

End Jsonc.

Import Jsonc.

(** ** A reference instance of the JSON library

    [commentjson] is not part of the repository.  To run the formatter on
    concrete files, the library is instantiated by a small reference
    implementation of the fragment of JSON used in the examples: objects,
    arrays, strings, integer literals, [true], [false], [null] and line
    comments introduced by two slashes.  Strings and numbers are kept as
    they are written.  [dumps] lays values out as [json.dumps] does with
    [indent=2]: one member or element per line, two more spaces per level,
    a comma directly after each item but the last, a colon and a space
    after a key, and empty containers written without a line break. *)

Module RefJson.

#[local] Set Warnings "-register-all".

Inductive json :=
  | JNull
  | JBool (b : bool)
  | JNum (lit : text)
  | JStr (raw : text)
  | JArr (xs : list json)
  | JObj (kvs : list (text * json)).

Definition is_json_ws (c : char) : bool :=
  (c =? 32) || (c =? 9) || (c =? 10) || (c =? 13).

Definition is_digit (c : char) : bool := (48 <=? c) && (c <=? 57).

(** Skips white space and line comments. *)
Fixpoint skip (in_comment : bool) (s : text) : text :=
  match s with
  | [] => []
  | c :: s' =>
      if in_comment then skip (negb (c =? LF)) s'
      else if is_json_ws c then skip false s'
      else if (c =? SLASH) && startswith s' [SLASH] then skip true s'
      else s
  end.

(** The raw characters of a string literal, after its opening quote, and
    what follows its closing quote. *)
Fixpoint scan_string (acc s : text) : option (text * text) :=
  match s with
  | [] => None
  | c :: s' =>
      if c =? DQUOTE then Some (acc, s')
      else if c =? BACKSLASH then
        match s' with
        | e :: s'' => scan_string (acc ++ [c; e]) s''
        | [] => None
        end
      else scan_string (acc ++ [c]) s'
  end.

Fixpoint span_digits (s : text) : text * text :=
  match s with
  | c :: s' =>
      if is_digit c then let '(d, r) := span_digits s' in (c :: d, r)
      else ([], s)
  | [] => ([], [])
  end.

(** A repeated key keeps its first position and takes the last value, as in
    a Python [dict]. *)
Fixpoint set_member (k : text) (v : json) (kvs : list (text * json))
  : list (text * json) :=
  match kvs with
  | [] => [(k, v)]
  | (k', v') :: kvs' =>
      if decide (k' = k) then (k, v) :: kvs'
      else (k', v') :: set_member k v kvs'
  end.

Fixpoint parse_value (fuel : nat) (s : text) : option (json * text) :=
  match fuel with
  | O => None
  | S fuel' =>
      match skip false s with
      | [] => None
      | c :: s' =>
          if c =? LBRACE then
            match skip false s' with
            | c' :: s'' =>
                if c' =? RBRACE then Some (JObj [], s'')
                else parse_members fuel' [] s'
            | [] => None
            end
          else if c =? 91 then
            match skip false s' with
            | c' :: s'' =>
                if c' =? 93 then Some (JArr [], s'')
                else parse_elements fuel' [] s'
            | [] => None
            end
          else if c =? DQUOTE then
            match scan_string [] s' with
            | Some (raw, r) => Some (JStr raw, r)
            | None => None
            end
          else if startswith (c :: s') (str "true") then
            Some (JBool true, drop 4 (c :: s'))
          else if startswith (c :: s') (str "false") then
            Some (JBool false, drop 5 (c :: s'))
          else if startswith (c :: s') (str "null") then
            Some (JNull, drop 4 (c :: s'))
          else
            let '(sign, r) := if c =? 45 then ([c], s') else ([], c :: s') in
            match span_digits r with
            | ([], _) => None
            | (d, r') => Some (JNum (sign ++ d), r')
            end
      end
  end
with parse_members (fuel : nat) (acc : list (text * json)) (s : text)
  : option (json * text) :=
  match fuel with
  | O => None
  | S fuel' =>
      match skip false s with
      | q :: s1 =>
          if q =? DQUOTE then
            match scan_string [] s1 with
            | Some (k, s2) =>
                match skip false s2 with
                | c :: s3 =>
                    if c =? COLON then
                      match parse_value fuel' s3 with
                      | Some (v, s4) =>
                          match skip false s4 with
                          | d :: s5 =>
                              if d =? 44 then
                                parse_members fuel' (set_member k v acc) s5
                              else if d =? RBRACE then
                                Some (JObj (set_member k v acc), s5)
                              else None
                          | [] => None
                          end
                      | None => None
                      end
                    else None
                | [] => None
                end
            | None => None
            end
          else None
      | [] => None
      end
  end
with parse_elements (fuel : nat) (acc : list json) (s : text)
  : option (json * text) :=
  match fuel with
  | O => None
  | S fuel' =>
      match parse_value fuel' s with
      | Some (v, s1) =>
          match skip false s1 with
          | d :: s2 =>
              if d =? 44 then parse_elements fuel' (acc ++ [v]) s2
              else if d =? 93 then Some (JArr (acc ++ [v]), s2)
              else None
          | [] => None
          end
      | None => None
      end
  end.

Definition ref_loads (s : text) : option json :=
  match parse_value (S (length s)) s with
  | Some (v, r) => match skip false r with [] => Some v | _ => None end
  | None => None
  end.

Definition nl_indent (level : nat) : text := LF :: repeat SPACE (2 * level).

Fixpoint dumps_at (level : nat) (j : json) : text :=
  match j with
  | JNull => str "null"
  | JBool true => str "true"
  | JBool false => str "false"
  | JNum lit => lit
  | JStr raw => [DQUOTE] ++ raw ++ [DQUOTE]
  | JArr [] => str "[]"
  | JArr xs =>
      str "[" ++ nl_indent (S level)
        ++ join (str "," ++ nl_indent (S level)) (map (dumps_at (S level)) xs)
        ++ nl_indent level ++ str "]"
  | JObj [] => str "{}"
  | JObj kvs =>
      str "{" ++ nl_indent (S level)
        ++ join (str "," ++ nl_indent (S level))
             (map (fun kv =>
                     [DQUOTE] ++ fst kv ++ [DQUOTE] ++ str ": "
                       ++ dumps_at (S level) (snd kv)) kvs)
        ++ nl_indent level ++ str "}"
  end.

Definition ref_is_true (j : json) : bool :=
  match j with
  | JNull => false
  | JBool b => b
  | JNum lit => existsb (fun c => (49 <=? c) && (c <=? 57)) lit
  | JStr raw => nonempty raw
  | JArr xs => match xs with [] => false | _ => true end
  | JObj kvs => match kvs with [] => false | _ => true end
  end.

Definition ref_json : JsonLib :=
  {| value := json;
     loads := ref_loads;
     is_true := ref_is_true;
     dumps_indent2 := dumps_at 0 |}.

End RefJson.

(** ** [format_yaml.py] *)

Module Yaml.

(** The external library [ruamel.yaml], taken as a parameter: [yaml_load]
    parses a text ([None] when it raises); the document it returns is
    [None] (Python's [None]) when the text holds no node.  [yaml_dump] is
    the text that [yaml.dump] writes. *)
Class YamlLib := {
  document : Type;
  yaml_load : text -> option (option document);
  yaml_dump : option document -> text
}.

(** One iteration of [for ln in lines] in [compress_comments]. *)
Definition compress_step (compressed : list text) (ln : text) : list text :=
  let stripped := strip ln in
  if startswith stripped [HASH] then compressed ++ [stripped]
  else if nonempty stripped then compressed ++ [ln]
  else
    match last compressed with
    | Some l => if nonempty (strip l) then compressed ++ [ln] else compressed
    | None => compressed
    end.

Definition compress_lines (lines : list text) : list text :=
  fold_left compress_step lines [].

(** What [compress_comments] writes for a file whose text is [t]. *)
Definition compress_text (t : text) : text :=
  join [LF] (compress_lines (splitlines t)) ++ [LF].

(** [compress_comments(file_path)] *)
Definition compress_comments (p : path) : io unit :=
  let* t := read_text p in
  write_text p (compress_text t).

(** What [strip_trailing_whitespace] writes for a file whose text is [t]. *)
Definition strip_text (t : text) : text :=
  join [LF] (map rstrip (splitlines t)) ++ [LF].

(** [strip_trailing_whitespace(file_path)] *)
Definition strip_trailing_whitespace (p : path) : io unit :=
  let* t := read_text p in
  write_text p (strip_text t).

Section Format.

Context {lib : YamlLib}.

(** [file_path.parent == Path(".github/workflows")], a function of the
    path that [pathlib] decides. *)
Variable in_workflows : path -> bool.

(** [yaml.load(f)] on the file opened for reading. *)
Definition load_file (p : path) : io (option document) :=
  let* t := read_text p in
  let* _ := log_call (CallLoad t) in
  or_raise (yaml_load t).

(** [yaml.dump(data, f)] on the file opened for writing. *)
Definition dump_file (p : path) (data : option document) : io unit :=
  let out := yaml_dump data in
  let* _ := log_call (CallDump out) in
  write_text p out.

(** [format_file(file_path)] *)
Definition format_file (p : path) : io unit :=
  let* t := read_text p in
  match t with
  | [] => ret tt
  | _ :: _ =>
      let* _ :=
        if negb (in_workflows p) then compress_comments p else ret tt in
      let* data := load_file p in
      match data with
      | Some _ => ret tt
      | None =>
          let* _ := dump_file p data in
          strip_trailing_whitespace p
      end
  end.

(** The loop under [if __name__ == "__main__"]: an exception ends it. *)
Fixpoint main (paths : list path) : io unit :=
  match paths with
  | [] => ret tt
  | p :: paths' => let* _ := format_file p in main paths'
  end.

End Format.

End Yaml.

Import Yaml.

(** ** A reference instance of the YAML library

    [ruamel.yaml] is not part of the repository.  For concrete runs it is
    instantiated on the fragment of block mappings written one [key: value]
    pair per line, with comments introduced by a hash sign at the start of a
    line.  A text without any pair loads as [None]; a value that opens a
    flow sequence without closing it is a syntax error. *)

Module RefYaml.

Definition parse_pair (ln : text) : option (text * text) :=
  let key := before COLON ln in
  match drop (length key) ln with
  | _ :: v =>
      let v := strip v in
      if startswith v (str "[") && negb (endswith v (str "]")) then None
      else match key with [] => None | _ => Some (key, v) end
  | [] => None
  end.

Fixpoint parse_pairs (lines : list text) : option (list (text * text)) :=
  match lines with
  | [] => Some []
  | ln :: lines' =>
      let s := strip ln in
      if negb (nonempty s) || startswith s [HASH] then parse_pairs lines'
      else
        match parse_pair s, parse_pairs lines' with
        | Some kv, Some kvs => Some (kv :: kvs)
        | _, _ => None
        end
  end.

Definition ref_load (t : text) : option (option (list (text * text))) :=
  match parse_pairs (splitlines t) with
  | Some [] => Some None
  | Some kvs => Some (Some kvs)
  | None => None
  end.

Definition ref_dump (d : option (list (text * text))) : text :=
  match d with
  | None => file_of [str "null"; str "..."]
  | Some kvs => file_of (map (fun kv => fst kv ++ str ": " ++ snd kv) kvs)
  end.

Definition ref_yaml : YamlLib :=
  {| document := list (text * text);
     yaml_load := ref_load;
     yaml_dump := ref_dump |}.

End RefYaml.

(** Runs [m] on a world holding the single file [p] with text [t] and
    returns the text of [p] afterwards and whether [m] returned normally. *)
Definition run_on {A} (m : path -> io A) (p : path) (t : text)
  : option text * bool :=
  let '(w, r) := m p (World {[p := t]} [] []) in
  (files w !! p, bool_decide (is_Some r)).

Definition demo_path : path := str "settings.jsonc".

Definition scenario : text :=
  file_of [str "{ // note"; str "  'a': 1 // x"; str "}"].

(** ** The quoting state of a line, as the specification words it *)

(** The in-string and escaped flags after one more character: the in-string
    flag is toggled by a double quote that is not escaped, a backslash that
    is not escaped escapes the next character, and any other character ends
    the escape. *)
Definition flag_step (st : bool * bool) (ch : char) : bool * bool :=
  let '(in_string, escaped) := st in
  if (ch =? DQUOTE) && negb escaped then (negb in_string, false)
  else if (ch =? BACKSLASH) && negb escaped then (in_string, true)
  else (in_string, false).

Definition flags_before (line : text) (i : nat) : bool * bool :=
  fold_left flag_step (take i line) (false, false).

(** Position [i] of [line] lies inside a quoted string literal. *)
Definition inside_string (line : text) (i : nat) : bool :=
  fst (flags_before line i).

(** The comment marker (two slashes) occurs at position [i] of [line]. *)
Definition marker_at (line : text) (i : nat) : Prop :=
  line !! i = Some SLASH /\ line !! S i = Some SLASH.

(** ** Comment compression, as the specification words it *)

(** A line without any character other than white space. *)
Definition is_blank (ln : text) : bool := negb (nonempty (strip ln)).

(** A comment-only line becomes its stripped form; any other line is kept
    as it is. *)
Definition normalize_line (ln : text) : text :=
  if startswith (strip ln) [HASH] then strip ln else ln.

(** Every line that is not blank is normalised, and of every run of blank
    lines only the first is kept; [after_blank] tells that the line before
    was blank, or that there is no line before. *)
Fixpoint squeeze (after_blank : bool) (lines : list text) : list text :=
  match lines with
  | [] => []
  | ln :: lines' =>
      if is_blank ln then
        if after_blank then squeeze true lines'
        else ln :: squeeze true lines'
      else normalize_line ln :: squeeze false lines'
  end.

(** Leading blank lines are dropped entirely. *)
Definition compress_spec (lines : list text) : list text :=
  squeeze true lines.

(** The lines kept so far end with a blank line, or no line was kept. *)
Definition last_blank (acc : list text) : bool :=
  match last acc with Some l => is_blank l | None => true end.

(** A text without any line boundary. *)
Definition one_line (l : text) : Prop :=
  Forall (fun c => is_linebreak c = false) l.

(** A text that does not end with a line feed. *)
Definition clean_end (l : text) : Prop := last l <> Some LF.

(** The comments held by the extraction loop do not end with a line feed. *)
Definition index_clean (st : extract_state) : Prop :=
  Forall clean_end (top st)
  /\ Forall clean_end (cur_comments st)
  /\ map_Forall (fun _ c => clean_end c) (inline st).

(** The comment index is well formed: no key is filed with an empty list
    of leading comments, and every inline comment starts with the marker. *)
Definition index_wf (leading : gmap text (list text))
    (inline : gmap text text) : Prop :=
  map_Forall (fun _ cs => cs <> []) leading
  /\ map_Forall (fun _ c => startswith c [SLASH; SLASH] = true) inline.

(** The text written by the pass-through branches of [format_jsonc_file]
    for a file whose text is [t]. *)
Definition trim_text (t : text) : text :=
  join [LF]
    (map strip (List.filter (fun ln => negb (is_blank ln)) (splitlines t)))
  ++ [LF].

(** The computation [m] changes neither the file at [q] nor the standard
    output. *)
Definition keeps {A} (q : path) (m : io A) : Prop :=
  forall w, files (fst (m w)) !! q = files w !! q
            /\ stdout (fst (m w)) = stdout w.

(** No blank line at the head of [lines] (when [after_blank] is set) and no
    blank line directly after a blank line. *)
Fixpoint no_blank_run (after_blank : bool) (lines : list text) : bool :=
  match lines with
  | [] => true
  | ln :: lines' =>
      if is_blank ln then negb after_blank && no_blank_run true lines'
      else no_blank_run false lines'
  end.

(** ** The structural paths computed by the two passes *)

(** The path that [extract_step] computes for [line] in state [st], when it
    treats the line as a key line. *)
Definition extract_path (st : extract_state) (line : text) : option text :=
  let '(content, _) := split_content_and_comment line in
  if negb (nonempty content) then None
  else if startswith content [LBRACE] then None
  else if startswith content [RBRACE] then None
  else
    match KEY_RE_match content with
    | Some key => Some (full_path (path_stack st) key)
    | None => None
    end.

(** The paths computed by the extraction pass, line by line. *)
Fixpoint extract_paths_from (st : extract_state) (lines : list text)
  : list (option text) :=
  match lines with
  | [] => []
  | line :: lines' =>
      extract_path st line :: extract_paths_from (extract_step st line) lines'
  end.

Definition extract_paths (lines : list text) : list (option text) :=
  extract_paths_from extract_init lines.

(** The path that [reinject_step] computes for [line] with the stack
    [stack], when it treats the line as a key line. *)
Definition reinject_path (stack : list text) (line : text) : option text :=
  if startswith (strip line) [RBRACE] then None
  else
    match KEY_RE_match line with
    | Some key => Some (join [DOT] (stack ++ [key]))
    | None => None
    end.

(** The paths computed by the reinjection pass over the lines between the
    first and the last line of the canonical text. *)
Fixpoint reinject_paths_from (st : reinject_state) (lines : list text)
  : list (option text) :=
  match lines with
  | [] => []
  | line :: lines' =>
      reinject_path (snd st) line
        :: reinject_paths_from (reinject_step ∅ ∅ st line) lines'
  end.

Definition reinject_paths (formatted : list text) : list (option text) :=
  reinject_paths_from ([], []) (removelast (tail formatted)).

(** ** The formatter as a function of the text of the file *)

Section Outcome.

Context {lib : JsonLib}.

(** What [format_jsonc_file] does on a file whose text is [t]: the calls it
    makes to the library, and the text it writes, or [None] when it raises
    (nothing is written then). *)
Definition format_jsonc_text (t : text) : list call * option text :=
  let lines := map (fun ln => ln ++ [LF]) (splitlines t) in
  let '(top, leading, inline, bottom) := extract_comments lines in
  match List.filter (fun ln => negb (startswith (strip ln) [SLASH; SLASH]))
          (List.filter (fun ln => nonempty (strip ln)) lines) with
  | [] => ([], Some (join [LF] (trimmed_lines lines) ++ [LF]))
  | _ :: _ =>
      match loads t with
      | None => ([CallLoad t], None)
      | Some data =>
          if negb (is_true data) then
            ([CallLoad t], Some (join [LF] (trimmed_lines lines) ++ [LF]))
          else
            let dumped := dumps_indent2 data in
            let formatted := splitlines dumped in
            match head formatted, last formatted with
            | Some opening, Some closing =>
                ([CallLoad t; CallDump dumped],
                 Some (join [LF] (reinject top leading inline bottom
                                    opening closing formatted) ++ [LF]))
            | _, _ => ([CallLoad t; CallDump dumped], None)
            end
      end
  end.

(** The world after every path of [argv] has been formatted in turn,
    whether or not formatting raised. *)
Fixpoint format_each (argv : list path) (w : world) : world :=
  match argv with
  | [] => w
  | p :: argv' => format_each argv' (fst (format_jsonc_file p w))
  end.

(** The paths of [argv] for which formatting raised, in order. *)
Fixpoint failures (argv : list path) (w : world) : list path :=
  match argv with
  | [] => []
  | p :: argv' =>
      let '(w', r) := format_jsonc_file p w in
      match r with
      | Some _ => failures argv' w'
      | None => p :: failures argv' w'
      end
  end.

(** The lines printed for a list of failed files. *)
Definition report (failed : list path) : list text :=
  match failed with
  | [] => []
  | _ :: _ =>
      str "Auto-format JSON(C) files failed for:"
        :: map (fun f => [SPACE; SPACE] ++ f) failed
  end.

End Outcome.

(** ** The files that the arguments name *)

Section Resolved.

Context {lib : JsonLib}.

(** [Path(p)] names a file, and two arguments may name the same one:
    [resolve p] is the key under which the file store holds the file that
    the argument [p] names. *)
Variable resolve : path -> path.

(** The loop of [main] with the file of each argument made explicit: the
    file that [p] names is formatted, and [p] itself is reported. *)
Fixpoint main_loop_at (argv : list path) (failed_files : list path)
  : io (list path) :=
  match argv with
  | [] => ret failed_files
  | p :: argv' =>
      let* raised := try_except (format_jsonc_file (resolve p)) in
      main_loop_at argv' (if raised then failed_files ++ [p] else failed_files)
  end.

(** [main(argv)] with the file of each argument made explicit. *)
Definition main_at (argv : list path) : io nat :=
  let* failed_files := main_loop_at argv [] in
  match failed_files with
  | _ :: _ =>
      let* _ := print (str "Auto-format JSON(C) files failed for:") in
      let* _ := print_all (map (fun f => [SPACE; SPACE] ++ f) failed_files) in
      ret 1%nat
  | [] => ret 0%nat
  end.

(** The arguments for which formatting the file they name raised. *)
Fixpoint failures_at (argv : list path) (w : world) : list path :=
  match argv with
  | [] => []
  | p :: argv' =>
      let '(w', r) := format_jsonc_file (resolve p) w in
      match r with
      | Some _ => failures_at argv' w'
      | None => p :: failures_at argv' w'
      end
  end.

End Resolved.

(** The output line [o] is the canonical line [l], as it stands or, when
    [l] is a key line, followed by a space and the inline comment that the
    index holds under a path ending with the key of [l]. *)
Definition kept_as (inline : gmap text text) (l o : text) : Prop :=
  o = l
  \/ exists stack key c,
       KEY_RE_match l = Some key
       /\ inline !! join [DOT] (stack ++ [key]) = Some c
       /\ o = l ++ [SPACE] ++ c.

(** ** Example files *)

(** The scenario of the specification. *)
Definition scenario_out : text :=
  file_of [str "{"; str "  'a': 1 // x"; str "}"].

(** A canonical document with a nested object. *)
Definition nested_canonical : list text :=
  [str "{"; str "  'a': {"; str "    'b': 1"; str "  },"; str "  'c': 2"; str "}"].

(** The same document written flush left, with a comment above its last
    key, and what the formatter makes of it in one and in two runs. *)
Definition flush_left : text :=
  file_of [str "{"; str "'a': {"; str "'b': 1"; str "},";
           str "// about c"; str "'c': 2"; str "}"].

Definition formatted_once : text :=
  file_of [str "{"; str "  'a': {"; str "    'b': 1"; str "  },";
           str "  // about c"; str "  'c': 2"; str "}"].

Definition formatted_twice : text := file_of nested_canonical.

(** A YAML file with an indented comment and an unclosed flow sequence. *)
Definition yaml_malformed : text := file_of [str "  # c"; str "a: ["].

Definition yaml_comment_only : text := file_of [str "# c"].

Definition yaml_pair : text := file_of [str "a: 1"].

(** A JSONC file whose only member lacks its value. *)
Definition jsonc_malformed : text := file_of [str "{"; str "  'a': "].

Definition bad_path : path := str "bad.jsonc".

(** A world with a malformed file and the scenario of the specification. *)
Definition two_files : world :=
  World {[ bad_path := jsonc_malformed; demo_path := scenario ]} [] [].

(** A world with a malformed YAML file and a well-formed one that
    [compress_comments] would change. *)
Definition two_yaml_files : world :=
  World {[ bad_path := yaml_malformed;
           demo_path := file_of [str "  # d"; str "b: 2"] ]} [] [].

(** An empty object that holds a comment. *)
Definition jsonc_empty_object : text :=
  file_of [str "{"; str "  // c"; str "}"].

Definition jsonc_comments : text :=
  file_of [str "  // only"; str ""; str "//x  "].

(** * Properties *)

(** ** Python strings *)

Section PyFacts.

Lemma rstrip_cons_nonspace c s :
  isspace c = false -> rstrip (c :: s) = c :: rstrip s.
Proof.
  intros Hc. simpl. rewrite Hc. by destruct (rstrip s).
Qed.

Lemma rstrip_prefix s : rstrip s `prefix_of` s.
Proof.
  induction s as [|c s [k Hk]]; simpl.
  - by exists [].
  - destruct (rstrip s) as [|r rs] eqn:E.
    + destruct (isspace c).
      * by exists (c :: s).
      * exists s. done.
    + exists k. by rewrite Hk at 1.
Qed.

Lemma lstrip_suffix s : lstrip s `suffix_of` s.
Proof.
  induction s as [|c s [k Hk]]; simpl.
  - by exists [].
  - destruct (isspace c).
    + exists (c :: k). by rewrite Hk at 1.
    + by exists [].
Qed.

Lemma isspace_all_rstrip s :
  rstrip s = [] <-> forallb isspace s = true.
Proof.
  induction s as [|c s IH]; simpl; [done|].
  destruct (rstrip s) as [|r rs] eqn:E.
  - destruct (isspace c); simpl; [tauto|]. split; done.
  - split; [done|]. intros [_ H]%andb_prop. by apply IH in H.
Qed.

Lemma isspace_all_lstrip s :
  lstrip s = [] <-> forallb isspace s = true.
Proof.
  induction s as [|c s IH]; simpl; [done|].
  destruct (isspace c); simpl; [done|]. split; done.
Qed.

Lemma lstrip_idemp s : lstrip (lstrip s) = lstrip s.
Proof.
  induction s as [|c s IH]; simpl; [done|].
  destruct (isspace c) eqn:E; [done|]. simpl. by rewrite E.
Qed.

Lemma rstrip_idemp s : rstrip (rstrip s) = rstrip s.
Proof.
  induction s as [|c s IH]; simpl; [done|].
  destruct (rstrip s) as [|r rs] eqn:E.
  - destruct (isspace c) eqn:Ec; simpl; [done|]. by rewrite Ec.
  - simpl in *. rewrite IH. done.
Qed.

Lemma lstrip_rstrip s : lstrip (rstrip s) = rstrip (lstrip s).
Proof.
  induction s as [|c s IH]; simpl; [done|].
  destruct (isspace c) eqn:Ec.
  - destruct (rstrip s) as [|r rs] eqn:E.
    + assert (lstrip s = []) as ->; [|done].
      by apply isspace_all_lstrip, isspace_all_rstrip.
    + simpl. by rewrite Ec.
  - rewrite rstrip_cons_nonspace by done.
    destruct (rstrip s); simpl; by rewrite Ec.
Qed.

Lemma strip_idemp s : strip (strip s) = strip s.
Proof.
  unfold strip. by rewrite lstrip_rstrip, rstrip_idemp, lstrip_idemp.
Qed.

Lemma rstrip_snoc_space s c : isspace c = true -> rstrip (s ++ [c]) = rstrip s.
Proof.
  intros Hc. induction s as [|x s IH]; simpl.
  - by rewrite Hc.
  - by rewrite IH.
Qed.

Lemma strip_lstrip_rstrip s : strip s = lstrip (rstrip s).
Proof. unfold strip. by rewrite lstrip_rstrip. Qed.

Lemma strip_snoc_LF s : strip (s ++ [LF]) = strip s.
Proof. by rewrite !strip_lstrip_rstrip, rstrip_snoc_space. Qed.

Lemma filter_map_bool {A B} (f : B -> bool) (g : A -> B) (l : list A) :
  List.filter f (map g l) = map g (List.filter (fun a => f (g a)) l).
Proof.
  induction l as [|a l IH]; simpl; [done|].
  destruct (f (g a)); simpl; by rewrite IH.
Qed.

Lemma flags_before_S line i ch :
  line !! i = Some ch ->
  flags_before line (S i) = flag_step (flags_before line i) ch.
Proof.
  intros H. unfold flags_before.
  rewrite (take_S_r _ _ _ H), fold_left_app. done.
Qed.

Lemma drop_cons_lookup {A} (l : list A) i x r :
  drop i l = x :: r -> l !! i = Some x /\ drop (S i) l = r.
Proof.
  revert i; induction l as [|y l IH]; intros [|i] H; simpl in *; try done.
  - by inversion H.
  - by apply IH.
Qed.

End PyFacts.

(** ** The comment scanner *)

Section Scanner.

Lemma scan_line_spec line : forall rest i ins esc,
  drop i line = rest ->
  flags_before line i = (ins, esc) ->
  (forall j, (j < i)%nat -> marker_at line j -> inside_string line j = true) ->
  match scan_line line i rest ins esc with
  | (content, Some c) =>
      exists k, marker_at line k /\ inside_string line k = false
        /\ (forall j, (j < k)%nat -> marker_at line j ->
              inside_string line j = true)
        /\ content = rstrip (take k line) /\ c = strip (drop k line)
  | (content, None) =>
      content = rstrip line
      /\ forall j, marker_at line j -> inside_string line j = true
  end.
Proof.
  induction rest as [|ch rest IH]; intros i ins esc Hd Hf Hlt; simpl.
  - split; [done|]. intros j Hm.
    destruct (decide (j < i)%nat) as [Hj|Hj]; [by apply Hlt|].
    destruct Hm as [Hm _]. apply lookup_lt_Some in Hm.
    assert (length (drop i line) = 0)%nat as Hl by by rewrite Hd.
    rewrite length_drop in Hl. lia.
  - apply drop_cons_lookup in Hd as [Hi Hd].
    pose proof (flags_before_S _ _ _ Hi) as HS. rewrite Hf in HS.
    destruct ((ch =? DQUOTE) && negb esc) eqn:E1.
    { apply IH; [done| by rewrite HS; simpl; rewrite E1 |].
      intros j Hj Hm. destruct (decide (j = i)) as [->|]; [|apply Hlt; [lia|done]].
      destruct Hm as [Hm _]. rewrite Hi in Hm. inversion Hm; subst.
      by destruct esc. }
    destruct ((ch =? BACKSLASH) && negb esc) eqn:E2.
    { apply IH; [done| by rewrite HS; simpl; rewrite E1, E2 |].
      intros j Hj Hm. destruct (decide (j = i)) as [->|]; [|apply Hlt; [lia|done]].
      destruct Hm as [Hm _]. rewrite Hi in Hm. inversion Hm; subst.
      by destruct esc. }
    destruct (negb ins && (ch =? SLASH) &&
              match line !! S i with Some c => c =? SLASH | None => false end)
      eqn:E3.
    { apply andb_prop in E3 as [E3 E5]. apply andb_prop in E3 as [E3 E4].
      exists i. repeat split; try done.
      - apply N.eqb_eq in E4. by subst.
      - destruct (line !! S i) as [c|]; [|done]. apply N.eqb_eq in E5. by subst.
      - unfold inside_string. rewrite Hf. simpl. by destruct ins. }
    apply IH; [done| by rewrite HS; simpl; rewrite E1, E2 |].
    intros j Hj Hm. destruct (decide (j = i)) as [->|]; [|apply Hlt; [lia|done]].
    unfold inside_string. rewrite Hf. simpl.
    destruct Hm as [Hm1 Hm2]. rewrite Hi in Hm1. inversion Hm1; subst.
    rewrite Hm2 in E3. simpl in E3. by destruct ins.
Qed.

Lemma strip_marker r :
  startswith (strip (SLASH :: SLASH :: r)) [SLASH; SLASH] = true.
Proof.
  unfold strip. change (lstrip (SLASH :: SLASH :: r)) with (SLASH :: SLASH :: r).
  rewrite !rstrip_cons_nonspace by reflexivity. reflexivity.
Qed.

(** C7. The scanner recognises the two-slash marker only outside a quoted
    string literal: when it returns a comment, the comment begins at the
    first marker that lies outside a string, the content is the part of the
    line before that marker without its trailing white space (a prefix of
    the line), and the comment starts with the marker; when every marker of
    the line lies inside a string, no comment is returned and the content
    is the whole line without its trailing white space. *)
Theorem split_content_and_comment_string_safe (line : text) :
  (forall content c,
     split_content_and_comment line = (content, Some c) ->
     exists i, marker_at line i /\ inside_string line i = false
       /\ (forall j, (j < i)%nat -> marker_at line j ->
             inside_string line j = true)
       /\ content = rstrip (take i line)
       /\ content `prefix_of` line
       /\ c = strip (drop i line)
       /\ startswith c [SLASH; SLASH] = true)
  /\ ((forall i, marker_at line i -> inside_string line i = true) ->
      split_content_and_comment line = (rstrip line, None)).
Proof.
  pose proof (scan_line_spec line line 0%nat false false eq_refl eq_refl) as H.
  fold (split_content_and_comment line) in H.
  specialize (H ltac:(intros; lia)).
  destruct (split_content_and_comment line) as [content [c|]]; split.
  - intros ? ? [= <- <-]. destruct H as (k & Hm & Hin & Hfirst & -> & ->).
    exists k. repeat split; try done; try apply Hm.
    + etrans; [apply rstrip_prefix|apply prefix_take].
    + destruct Hm as [H1 H2].
      destruct (drop k line) as [|a [|b r]] eqn:E.
      * apply (f_equal length) in E. rewrite length_drop in E.
        apply lookup_lt_Some in H1. simpl in E. lia.
      * apply drop_cons_lookup in E as [_ E].
        apply (f_equal length) in E. rewrite length_drop in E.
        apply lookup_lt_Some in H2. simpl in E. lia.
      * apply drop_cons_lookup in E as [Ea E].
        apply drop_cons_lookup in E as [Eb _].
        rewrite H1 in Ea. rewrite H2 in Eb. inversion Ea; inversion Eb; subst.
        apply strip_marker.
  - intros Hall. destruct H as (k & Hm & Hin & _). rewrite (Hall k Hm) in Hin. done.
  - intros ? ? [=].
  - intros _. by destruct H as [-> _].
Qed.

Lemma split_content_and_comment_string_safe_witness :
  (forall i, marker_at (str "'a//b'  ") i ->
             inside_string (str "'a//b'  ") i = true)
  /\ split_content_and_comment (str "'a//b'  ") = (str "'a//b'", None)
  /\ exists i,
       marker_at (str "'a//b': 1 // c ") i
       /\ inside_string (str "'a//b': 1 // c ") i = false
       /\ str "'a//b': 1" = rstrip (take i (str "'a//b': 1 // c "))
       /\ str "// c" = strip (drop i (str "'a//b': 1 // c ")).
Proof.
  assert (forall i, marker_at (str "'a//b'  ") i ->
                    inside_string (str "'a//b'  ") i = true) as Hall.
  { intros i [H1 H2].
    do 8 (destruct i as [|i];
          [first [discriminate H1 | discriminate H2 | reflexivity]|]).
    discriminate H1. }
  split; [exact Hall|]. split.
  - exact (proj2 (split_content_and_comment_string_safe (str "'a//b'  ")) Hall).
  - destruct (proj1 (split_content_and_comment_string_safe
                       (str "'a//b': 1 // c "))
                (str "'a//b': 1") (str "// c") eq_refl)
      as (i & Hm & Hin & _ & Hc & _ & Hs & _).
    exists i. done.
Defined.

End Scanner.

(** ** Lines *)

Section Lines.

Lemma one_line_app l1 l2 : one_line l1 -> one_line l2 -> one_line (l1 ++ l2).
Proof. apply Forall_app_2. Qed.

Lemma one_line_rstrip l : one_line l -> one_line (rstrip l).
Proof.
  intros H. destruct (rstrip_prefix l) as [k Hk].
  rewrite Hk in H. by apply Forall_app in H as [H _].
Qed.

Lemma one_line_lstrip l : one_line l -> one_line (lstrip l).
Proof.
  intros H. destruct (lstrip_suffix l) as [k Hk].
  rewrite Hk in H. by apply Forall_app in H as [_ H].
Qed.

Lemma one_line_strip l : one_line l -> one_line (strip l).
Proof. intros H. by apply one_line_rstrip, one_line_lstrip. Qed.

Lemma splitlines_from_one_line n : forall s cur,
  (length s <= n)%nat -> one_line cur ->
  Forall one_line (splitlines_from cur s).
Proof.
  induction n as [|n IH]; intros [|c s] cur Hn Hcur; simpl in *; try lia.
  - destruct cur; [constructor|constructor; [done|constructor]].
  - destruct cur; [constructor|constructor; [done|constructor]].
  - destruct (is_linebreak c) eqn:Ec.
    + destruct s as [|c' s'].
      * constructor; [done|constructor].
      * destruct ((c =? CR) && (c' =? LF)); constructor; try done;
          apply IH; simpl in *; try lia; constructor.
    + apply IH; [lia|]. apply one_line_app; [done|].
      constructor; [done|constructor].
Qed.

Lemma splitlines_one_line s : Forall one_line (splitlines s).
Proof. by apply (splitlines_from_one_line (length s)); [|constructor]. Qed.

Lemma splitlines_from_LF l : forall cur rest,
  one_line l ->
  splitlines_from cur (l ++ LF :: rest) = (cur ++ l) :: splitlines_from [] rest.
Proof.
  induction l as [|c l IH]; intros cur rest Hl; simpl.
  - rewrite app_nil_r. by destruct rest.
  - inversion Hl as [|? ? Hc Hl']; subst. rewrite Hc.
    rewrite IH by done. by rewrite <- app_assoc.
Qed.

Lemma splitlines_file_of ls :
  Forall one_line ls -> splitlines (file_of ls) = ls.
Proof.
  unfold splitlines, file_of.
  induction 1 as [|l ls Hl _ IH]; simpl; [done|].
  rewrite <- app_assoc. simpl.
  rewrite splitlines_from_LF by done. by rewrite IH.
Qed.

Lemma join_LF_file_of ls : ls <> [] -> join [LF] ls ++ [LF] = file_of ls.
Proof.
  unfold file_of. induction ls as [|l ls IH]; [done|]. intros _.
  destruct ls as [|l' ls]; [simpl; by rewrite app_nil_r|].
  change (join [LF] (l :: l' :: ls)) with (l ++ [LF] ++ join [LF] (l' :: ls)).
  rewrite map_cons, concat_cons, <- IH by done.
  by rewrite <- !app_assoc.
Qed.

(** What [compress_comments] writes holds no carriage return, so that
    reading the file again returns the text that was written. *)
Lemma join_one_line ls c :
  Forall one_line ls -> c ∈ join [LF] ls ++ [LF] ->
  c = LF \/ is_linebreak c = false.
Proof.
  intros Hls. rewrite elem_of_app, list_elem_of_singleton.
  intros [Hc|Hc]; [|by left].
  induction Hls as [|l ls Hl Hls IH]; [by apply elem_of_nil in Hc|].
  destruct ls as [|l' ls].
  - right. cbn in Hc. by apply (proj1 (Forall_forall _ _) Hl).
  - change (join [LF] (l :: l' :: ls)) with (l ++ [LF] ++ join [LF] (l' :: ls))
      in Hc.
    rewrite !elem_of_app, list_elem_of_singleton in Hc.
    destruct Hc as [Hc|[Hc|Hc]]; [|by left|by apply IH].
    right. by apply (proj1 (Forall_forall _ _) Hl).
Qed.

End Lines.

(** ** Comment compression in YAML files *)

Section Compress.

Lemma last_blank_snoc acc l : last_blank (acc ++ [l]) = is_blank l.
Proof. unfold last_blank. by rewrite last_snoc. Qed.

Lemma comment_not_blank ln :
  startswith (strip ln) [HASH] = true -> is_blank ln = false.
Proof. unfold is_blank. by destruct (strip ln). Qed.

Lemma is_blank_strip ln : is_blank (strip ln) = is_blank ln.
Proof. unfold is_blank. by rewrite strip_idemp. Qed.

Lemma is_blank_normalize ln : is_blank (normalize_line ln) = is_blank ln.
Proof.
  unfold normalize_line. destruct (startswith (strip ln) [HASH]); [|done].
  apply is_blank_strip.
Qed.

Lemma normalize_line_idemp ln :
  normalize_line (normalize_line ln) = normalize_line ln.
Proof.
  unfold normalize_line.
  destruct (startswith (strip ln) [HASH]) eqn:E; rewrite ?strip_idemp, E; done.
Qed.

Lemma compress_step_spec acc ln :
  compress_step acc ln = acc ++ squeeze (last_blank acc) [ln].
Proof.
  unfold compress_step, last_blank. cbn [squeeze].
  destruct (startswith (strip ln) [HASH]) eqn:E.
  - rewrite (comment_not_blank _ E). unfold normalize_line. by rewrite E.
  - unfold is_blank, normalize_line. rewrite E.
    destruct (nonempty (strip ln)); cbn [negb]; [done|].
    destruct (last acc) as [l|]; [|by rewrite app_nil_r].
    destruct (nonempty (strip l)); cbn [negb]; [done|by rewrite app_nil_r].
Qed.

Lemma fold_compress_step lines : forall acc,
  fold_left compress_step lines acc = acc ++ squeeze (last_blank acc) lines.
Proof.
  induction lines as [|ln lines IH]; intros acc; cbn [fold_left squeeze].
  - by rewrite app_nil_r.
  - rewrite IH, compress_step_spec. cbn [squeeze].
    destruct (is_blank ln) eqn:E.
    + destruct (last_blank acc) eqn:Eb.
      * by rewrite app_nil_r, Eb.
      * by rewrite last_blank_snoc, E, <- app_assoc.
    + by rewrite last_blank_snoc, is_blank_normalize, E, <- app_assoc.
Qed.

Lemma compress_lines_spec lines : compress_lines lines = compress_spec lines.
Proof. unfold compress_lines. by rewrite fold_compress_step. Qed.

Lemma squeeze_idemp lines : forall b,
  squeeze b (squeeze b lines) = squeeze b lines.
Proof.
  induction lines as [|ln lines IH]; intros b; cbn [squeeze]; [done|].
  destruct (is_blank ln) eqn:E.
  - destruct b; cbn [squeeze]; [done|]. by rewrite E, IH.
  - cbn [squeeze]. by rewrite is_blank_normalize, E, normalize_line_idemp, IH.
Qed.

Lemma squeeze_one_line lines : forall b,
  Forall one_line lines -> Forall one_line (squeeze b lines).
Proof.
  induction lines as [|ln lines IH]; intros b H; cbn [squeeze]; [done|].
  inversion H as [|? ? Hl Hls]; subst.
  destruct (is_blank ln); [destruct b|]; try constructor; auto.
  unfold normalize_line. destruct (startswith _ _); [|done].
  by apply one_line_strip.
Qed.

Lemma compress_text_idemp t : compress_text (compress_text t) = compress_text t.
Proof.
  unfold compress_text. rewrite !compress_lines_spec. unfold compress_spec.
  destruct (squeeze true (splitlines t)) as [|l ls] eqn:E; [done|].
  rewrite (join_LF_file_of (l :: ls)) by done.
  rewrite splitlines_file_of.
  - rewrite <- E, squeeze_idemp, E. by apply join_LF_file_of.
  - rewrite <- E. apply squeeze_one_line, splitlines_one_line.
Qed.

Lemma compress_text_no_CR t : CR ∉ compress_text t.
Proof.
  intros H. unfold compress_text in H. rewrite compress_lines_spec in H.
  apply join_one_line in H as [H|H]; [done|done|].
  apply squeeze_one_line, splitlines_one_line.
Qed.

(** C10. [compress_comments] writes the lines of the file with every
    comment-only line replaced by its stripped form, every other non-blank
    line unchanged and every run of blank lines reduced to one blank line
    (none at the head of the file), joined by line feeds and ended by a
    line feed; running it a second time changes nothing. *)
Theorem compress_comments_normalizes (p : path) (w : world) :
  compress_comments p w =
    match files w !! p with
    | Some t =>
        (World (<[p := join [LF] (compress_spec (splitlines t)) ++ [LF]]> (files w))
               (calls w) (stdout w), Some tt)
    | None => (w, None)
    end
  /\ (let* _ := compress_comments p in compress_comments p) w
     = compress_comments p w.
Proof.
  unfold compress_comments, bind, read_text, write_text. split.
  - destruct (files w !! p) as [t|]; [|done].
    unfold compress_text. by rewrite compress_lines_spec.
  - destruct (files w !! p) as [t|] eqn:E; [|done].
    cbn [files calls stdout]. rewrite lookup_insert_eq.
    cbn [files calls stdout].
    by rewrite insert_insert_eq, compress_text_idemp.
Qed.

End Compress.

(** ** The string model on small inputs *)

Example splitlines_boundaries :
  splitlines [97; 13; 10; 98; 10; 10; 99] = [[97]; [98]; []; [99]]
  /\ splitlines [] = []
  /\ splitlines [10] = [[]]
  /\ splitlines (str "a" ++ [LF; LF]) = [str "a"; []].
Proof. vm_compute. done. Qed.

Example strip_both_ends :
  strip ([9; 32] ++ str "a b" ++ [32; 10]) = str "a b"
  /\ rstrip (str "  a  ") = str "  a"
  /\ lstrip (str "  a  ") = str "a  ".
Proof. vm_compute. done. Qed.

Example KEY_RE_examples :
  KEY_RE_match (str "  'a': {") = Some (str "a")
  /\ KEY_RE_match (str "  'a' : 1") = None
  /\ KEY_RE_match (str "  '': 1") = None
  /\ KEY_RE_match (str "  }, 'a': 1") = None.
Proof. vm_compute. done. Qed.

Example split_inside_string :
  split_content_and_comment (str "  'u': 'http://x' // y ")
  = (str "  'u': 'http://x'", Some (str "// y")).
Proof. vm_compute. done. Qed.

Example split_plain :
  split_content_and_comment (str "  'a': 1 // x") = (str "  'a': 1", Some (str "// x")).
Proof. reflexivity. Qed.


(** ** The formatter on concrete files *)

Section Examples.

Lemma extract_path_inline st line c fp :
  snd (split_content_and_comment line) = Some c -> nonempty c = true ->
  extract_path st line = Some fp ->
  inline (extract_step st line) !! fp = Some c.
Proof.
  unfold extract_path, extract_step.
  destruct (split_content_and_comment line) as [content comment]. cbn [snd].
  intros -> Hc.
  destruct (negb (nonempty content)); [done|].
  destruct (startswith content [LBRACE]); [done|].
  destruct (startswith content [RBRACE]); [done|].
  destruct (KEY_RE_match content) as [key|]; [|done].
  intros [= <-]. rewrite Hc.
  destruct (cur_comments st); cbn [inline]; by rewrite lookup_insert_eq.
Qed.

(** C1. On the scenario of the specification the comment that trails the
    opening brace is split off its line by the scanner, but the extraction
    pass files it in none of its four containers: the index holds the
    comment of the key and nothing else. *)
Theorem extract_comments_loses_opening_comment :
  let lines := map (fun ln => ln ++ [LF]) (splitlines scenario) in
  head lines = Some (str "{ // note" ++ [LF])
  /\ split_content_and_comment (str "{ // note" ++ [LF])
     = (str "{", Some (str "// note"))
  /\ extract_comments lines = ([], ∅, {[ str "a" := str "// x" ]}, []).
Proof. vm_compute. done. Qed.

(** C3. On the scenario of the specification the formatter writes the
    canonical text with the comment of the key at the end of its line; the
    comment of the opening line is not written above the key, nor anywhere
    else. *)
Theorem format_scenario_output :
  scenario = file_of [str "{ // note"; str "  'a': 1 // x"; str "}"]
  /\ run_on (@format_jsonc_file RefJson.ref_json) demo_path scenario
     = (Some scenario_out, true).
Proof. vm_compute. done. Qed.

Lemma reinject_path_inline leading inline out stack line fp c :
  reinject_path stack line = Some fp ->
  leading !! fp = None -> inline !! fp = Some c ->
  fst (reinject_step leading inline (out, stack) line)
  = out ++ [line ++ [SPACE] ++ c].
Proof.
  unfold reinject_path, reinject_step.
  destruct (startswith (strip line) [RBRACE]); [done|].
  destruct (KEY_RE_match line) as [key|]; [|done].
  intros [= <-] -> ->. done.
Qed.

(** C4. On a document that is its own canonical text, the two passes
    disagree on the path of the key that follows a nested object: the
    closing line of the nested object is indented, the extraction pass does
    not pop its stack on it and computes the path a.c, and the reinjection
    pass pops and computes c. *)
Theorem path_computation_disagrees :
  let original := file_of nested_canonical in
  let lines := map (fun ln => ln ++ [LF]) (splitlines original) in
  let formatted :=
    splitlines (RefJson.dumps_at 0
                  (default RefJson.JNull (RefJson.ref_loads original))) in
  formatted = nested_canonical
  /\ extract_paths lines
     = [None; Some (str "a"); Some (str "a.b"); None; Some (str "a.c"); None]
  /\ reinject_paths formatted
     = [Some (str "a"); Some (str "a.b"); None; Some (str "c")]
  /\ (forall st,
        path_stack (extract_step st (str "  }," ++ [LF])) = path_stack st)
  /\ (forall leading inline out stack,
        snd (reinject_step leading inline (out, stack) (str "  },"))
        = removelast stack).
Proof.
  split; [vm_compute; done|]. split; [vm_compute; done|].
  split; [vm_compute; done|]. split; intros; reflexivity.
Qed.

(** C8. Formatting is not idempotent: the formatter turns [flush_left] into
    [formatted_once], and formatting that result again removes the comment
    above the last key. *)
Theorem format_twice_differs :
  run_on (@format_jsonc_file RefJson.ref_json) demo_path flush_left
  = (Some formatted_once, true)
  /\ run_on (@format_jsonc_file RefJson.ref_json) demo_path formatted_once
     = (Some formatted_twice, true)
  /\ formatted_once <> formatted_twice.
Proof. vm_compute. done. Qed.

End Examples.

(** ** The YAML pipeline *)

Section YamlFormat.

Context {lib : YamlLib}.
Variable in_workflows : path -> bool.

(** C2. For a document that loads as a tree, [format_file] returns right
    after the load: the tree is never dumped, and the file holds what
    [compress_comments] wrote (or its original text, under the workflows
    directory). *)
Theorem format_file_skips_dump (p : path) (w : world) (t : text)
    (d : document) :
  files w !! p = Some t -> t <> [] ->
  yaml_load (if in_workflows p then t else compress_text t) = Some (Some d) ->
  format_file in_workflows p w =
    (World (if in_workflows p then files w
            else <[p := compress_text t]> (files w))
           (calls w ++ [CallLoad (if in_workflows p then t
                                  else compress_text t)])
           (stdout w),
     Some tt).
Proof.
  intros Hp Ht Hload.
  unfold format_file, bind, read_text. rewrite Hp.
  destruct t as [|c t]; [done|].
  destruct (in_workflows p); cbn [negb].
  - unfold load_file, bind, ret, read_text, log_call, or_raise. cbn.
    rewrite Hp. cbn. rewrite Hload. done.
  - unfold compress_comments, load_file, bind, ret, read_text, write_text,
      log_call, or_raise. cbn [files calls stdout].
    rewrite Hp. cbn [files calls stdout]. rewrite lookup_insert_eq.
    cbn [files calls stdout]. rewrite Hload. done.
Qed.

End YamlFormat.

Lemma format_file_skips_dump_witness :
  let w := World {[demo_path := yaml_pair]} [] [] in
  files w !! demo_path = Some yaml_pair
  /\ yaml_pair <> []
  /\ RefYaml.ref_load (compress_text yaml_pair) = Some (Some [(str "a", str "1")])
  /\ @format_file RefYaml.ref_yaml (fun _ => false) demo_path w
     = (World (<[demo_path := compress_text yaml_pair]> (files w))
              [CallLoad (compress_text yaml_pair)] [], Some tt).
Proof.
  assert (RefYaml.ref_load (compress_text yaml_pair)
          = Some (Some [(str "a", str "1")])) as Hload by (vm_compute; done).
  split; [apply lookup_singleton_eq|].
  split; [done|]. split; [exact Hload|].
  exact (@format_file_skips_dump RefYaml.ref_yaml (fun _ => false)
           demo_path (World {[demo_path := yaml_pair]} [] []) yaml_pair
           [(str "a", str "1")]
           (lookup_singleton_eq demo_path yaml_pair) ltac:(done) Hload).
Defined.

(** ** The JSONC pipeline *)

Section JsoncFormat.

Context {lib : JsonLib}.

(** [format_jsonc_file] reads the file, makes the calls and writes the text
    that [format_jsonc_text] gives; it writes nothing when it raises. *)
Lemma format_jsonc_file_text (p : path) (w : world) :
  format_jsonc_file p w =
    match files w !! p with
    | None => (w, None)
    | Some t =>
        match format_jsonc_text t with
        | (cs, Some out) =>
            (World (<[p := out]> (files w)) (calls w ++ cs) (stdout w), Some tt)
        | (cs, None) => (World (files w) (calls w ++ cs) (stdout w), None)
        end
    end.
Proof.
  unfold format_jsonc_file, format_jsonc_text, bind, read_text.
  destruct (files w !! p) as [t|] eqn:Hp; [|done].
  destruct (extract_comments _) as [[[top leading] inline] bottom].
  destruct (List.filter _ _) as [|l ls].
  { unfold write_text. by rewrite app_nil_r. }
  rewrite Hp. unfold call_loads, call_dumps, bind, log_call, or_raise, ret,
    raise, write_text. cbn [files calls stdout].
  destruct (loads t) as [data|]; [|done].
  destruct (negb (is_true data)); [done|].
  cbn [files calls stdout].
  destruct (head (splitlines (dumps_indent2 data))) as [opening|];
    cbn [files calls stdout]; rewrite <- ?app_assoc; [|done].
  destruct (last (splitlines (dumps_indent2 data))) as [closing|];
    cbn [files calls stdout]; done.
Qed.

Lemma format_jsonc_file_stdout (p : path) (w : world) :
  stdout (fst (format_jsonc_file p w)) = stdout w.
Proof.
  rewrite format_jsonc_file_text.
  destruct (files w !! p); [|done].
  by destruct (format_jsonc_text _) as [cs [out|]].
Qed.

(** A failure leaves every file as it was. *)
Lemma format_jsonc_file_raise (p : path) (w : world) :
  snd (format_jsonc_file p w) = None ->
  files (fst (format_jsonc_file p w)) = files w.
Proof.
  rewrite format_jsonc_file_text.
  destruct (files w !! p); [|done].
  by destruct (format_jsonc_text _) as [cs [out|]].
Qed.

(** Formatting a file changes no other file. *)
Lemma format_jsonc_file_other (p q : path) (w : world) :
  p <> q -> files (fst (format_jsonc_file p w)) !! q = files w !! q.
Proof.
  intros Hpq. rewrite format_jsonc_file_text.
  destruct (files w !! p); [|done].
  destruct (format_jsonc_text _) as [cs [out|]]; cbn; [|done].
  by rewrite lookup_insert_ne.
Qed.

Lemma print_all_spec (ls : list text) : forall w,
  print_all ls w = (World (files w) (calls w) (stdout w ++ ls), Some tt).
Proof.
  induction ls as [|l ls IH]; intros w; cbn.
  - rewrite app_nil_r. by destruct w.
  - unfold bind, print. rewrite IH. cbn. by rewrite <- app_assoc.
Qed.

Lemma main_loop_spec (argv : list path) : forall acc w,
  main_loop argv acc w = (format_each argv w, Some (acc ++ failures argv w)).
Proof.
  induction argv as [|p argv IH]; intros acc w; cbn.
  - by rewrite app_nil_r.
  - unfold bind, try_except.
    destruct (format_jsonc_file p w) as [w' [[]|]]; cbn; rewrite IH.
    + done.
    + by rewrite <- app_assoc.
Qed.

Lemma format_each_stdout (argv : list path) : forall w,
  stdout (format_each argv w) = stdout w.
Proof.
  induction argv as [|p argv IH]; intros w; cbn; [done|].
  by rewrite IH, format_jsonc_file_stdout.
Qed.

Lemma trimmed_lines_LF (ls : list text) :
  trimmed_lines (map (fun ln => ln ++ [LF]) ls)
  = map strip (List.filter (fun ln => negb (is_blank ln)) ls).
Proof.
  unfold trimmed_lines. rewrite filter_map_bool, map_map.
  unfold is_blank.
  induction ls as [|l ls IH]; simpl; [done|].
  rewrite strip_snoc_LF. destruct (nonempty (strip l)); simpl; [|done].
  rewrite IH. f_equal. apply strip_snoc_LF.
Qed.

Lemma no_structural_line (ls : list text) :
  Forall (fun ln => is_blank ln = true
                    \/ startswith (strip ln) [SLASH; SLASH] = true) ls ->
  List.filter (fun ln => negb (startswith (strip ln) [SLASH; SLASH]))
    (List.filter (fun ln => nonempty (strip ln))
       (map (fun ln => ln ++ [LF]) ls)) = [].
Proof.
  induction 1 as [|l ls Hl _ IH]; simpl; [done|].
  rewrite strip_snoc_LF.
  destruct (nonempty (strip l)) eqn:E; simpl; [|done].
  rewrite strip_snoc_LF.
  destruct Hl as [Hl|Hl]; [unfold is_blank in Hl; by rewrite E in Hl|].
  by rewrite Hl.
Qed.

Lemma structural_line (ls : list text) :
  Exists (fun ln => is_blank ln = false
                    /\ startswith (strip ln) [SLASH; SLASH] = false) ls ->
  List.filter (fun ln => negb (startswith (strip ln) [SLASH; SLASH]))
    (List.filter (fun ln => nonempty (strip ln))
       (map (fun ln => ln ++ [LF]) ls)) <> [].
Proof.
  induction 1 as [l ls [Hb Hc]|l ls _ IH]; cbn [map List.filter];
    rewrite strip_snoc_LF.
  - unfold is_blank in Hb. destruct (nonempty (strip l)); [|done].
    cbn [List.filter]. by rewrite strip_snoc_LF, Hc.
  - destruct (nonempty (strip l)); [|done]. cbn [List.filter].
    rewrite strip_snoc_LF.
    by destruct (negb (startswith (strip l) [SLASH; SLASH])).
Qed.

End JsoncFormat.

(** The pass-through of files without structure.  A JSONC file made of
    comment lines and blank lines only (or of nothing at all) is rewritten
    as its non-blank lines, each
    stripped of its leading and trailing white space, in their order,
    joined by line feeds and ended by a line feed, and the parser is not
    called.  The YAML pipeline leaves an empty file as it is, without any
    call to the parser; for a file that is not empty (outside the workflows
    directory) its first call to the library is the load of the text that
    [compress_comments] wrote. *)
Theorem comment_only_passthrough {jl : JsonLib} {yl : YamlLib}
    (in_workflows : path -> bool) (p : path) (w : world) (t : text) :
  (files w !! p = Some t ->
   Forall (fun ln => is_blank ln = true
                     \/ startswith (strip ln) [SLASH; SLASH] = true)
          (splitlines t) ->
   format_jsonc_file p w =
     (World (<[p := join [LF]
                      (map strip
                         (List.filter (fun ln => negb (is_blank ln))
                            (splitlines t))) ++ [LF]]> (files w))
            (calls w) (stdout w),
      Some tt))
  /\ (files w !! p = Some [] -> format_file in_workflows p w = (w, Some tt))
  /\ (files w !! p = Some t -> t <> [] -> in_workflows p = false ->
      exists cs,
        calls (fst (format_file in_workflows p w))
        = calls w ++ CallLoad (compress_text t) :: cs).
Proof.
  split; [|split].
  - intros Hp Hall. rewrite format_jsonc_file_text, Hp.
    unfold format_jsonc_text.
    destruct (extract_comments _) as [[[top leading] inline] bottom].
    rewrite (no_structural_line _ Hall), trimmed_lines_LF.
    by rewrite app_nil_r.
  - intros Hp. unfold format_file, bind, read_text. by rewrite Hp.
  - intros Hp Ht Hw. unfold format_file, bind, read_text. rewrite Hp, Hw.
    destruct t as [|c t]; [done|]. cbn [negb].
    unfold compress_comments, load_file, dump_file, strip_trailing_whitespace,
      or_raise, bind, ret, raise, read_text, write_text, log_call.
    cbn [files calls stdout]. rewrite Hp. cbn [files calls stdout].
    rewrite lookup_insert_eq. cbn [files calls stdout].
    destruct (yaml_load (compress_text (c :: t))) as [[d|]|];
      cbv beta iota zeta; cbn [files calls stdout fst].
    + by exists [].
    + rewrite lookup_insert_eq. cbv beta iota zeta.
      cbn [files calls stdout fst]. rewrite <- app_assoc. by eexists.
    + by exists [].
Qed.

Lemma comment_only_passthrough_witness :
  let w := World {[demo_path := jsonc_comments]} [] [] in
  files w !! demo_path = Some jsonc_comments
  /\ Forall (fun ln => is_blank ln = true
                       \/ startswith (strip ln) [SLASH; SLASH] = true)
            (splitlines jsonc_comments)
  /\ @format_jsonc_file RefJson.ref_json demo_path w
     = (World {[demo_path := file_of [str "// only"; str "//x"]]} [] [],
        Some tt).
Proof.
  assert (Forall (fun ln => is_blank ln = true
                       \/ startswith (strip ln) [SLASH; SLASH] = true)
            (splitlines jsonc_comments)) as Hall.
  { assert (splitlines jsonc_comments = [str "  // only"; []; str "//x  "])
      as -> by (vm_compute; done).
    repeat first
      [ apply Forall_nil_2
      | apply Forall_cons_2;
        [first [left; vm_compute; reflexivity | right; vm_compute; reflexivity]|] ]. }
  split; [apply lookup_singleton_eq|]. split; [exact Hall|].
  rewrite (proj1 (@comment_only_passthrough RefJson.ref_json RefYaml.ref_yaml
                    (fun _ => false) demo_path
                    (World {[demo_path := jsonc_comments]} [] [])
                    jsonc_comments)
             (lookup_singleton_eq demo_path jsonc_comments) Hall).
  cbn [files calls stdout]. rewrite insert_singleton_eq.
  vm_compute. done.
Defined.

(** A YAML file that holds a comment only is handed to the parser. *)
Lemma yaml_comment_only_is_parsed :
  head (calls (fst (@format_file RefYaml.ref_yaml (fun _ => false) demo_path
                      (World {[demo_path := yaml_comment_only]} [] []))))
  = Some (CallLoad yaml_comment_only).
Proof. vm_compute. done. Qed.

(** C5. A YAML file that holds one comment line and nothing else does not
    keep its comment: [format_file] loads it, gets no document, and dumps
    that empty document over the file, inside as well as outside the
    workflows directory. *)
Theorem format_file_destroys_comment_only_file :
  yaml_comment_only = file_of [str "# c"]
  /\ @format_file RefYaml.ref_yaml (fun _ => false) demo_path
       (World {[demo_path := yaml_comment_only]} [] [])
     = (World {[demo_path := file_of [str "null"; str "..."]]}
              [CallLoad yaml_comment_only;
               CallDump (file_of [str "null"; str "..."])] [],
        Some tt)
  /\ @format_file RefYaml.ref_yaml (fun _ => true) demo_path
       (World {[demo_path := yaml_comment_only]} [] [])
     = (World {[demo_path := file_of [str "null"; str "..."]]}
              [CallLoad yaml_comment_only;
               CallDump (file_of [str "null"; str "..."])] [],
        Some tt).
Proof. vm_compute. done. Qed.

Lemma yaml_main_app {yl : YamlLib} (in_workflows : path -> bool)
    (pre rest : list path) (w : world) :
  Yaml.main in_workflows (pre ++ rest) w
  = match Yaml.main in_workflows pre w with
    | (w1, Some _) => Yaml.main in_workflows rest w1
    | (w1, None) => (w1, None)
    end.
Proof.
  revert w. induction pre as [|p pre IH]; intros w; [done|].
  cbn [app Yaml.main]. unfold bind.
  destruct (format_file in_workflows p w) as [w1 [[]|]]; [apply IH|done].
Qed.

(** C6, as amended.  In the JSONC pipeline a file that has a line that is
    neither blank nor a comment and that the parser rejects is not
    written: formatting raises after the call to the parser and leaves the
    file store as it was, and no failure of the formatter changes a file.
    [main] formats every path in turn whether or not an earlier one
    failed, prints the failed paths once at the end, and returns 1 when at
    least one file failed and 0 otherwise.  In the YAML pipeline the
    failure of the load of a file that is not empty makes [format_file]
    raise, after [compress_comments] has rewritten the file when it lies
    outside the workflows directory and with the file untouched when it
    lies under it; an exception raised for one path ends the loop over the
    paths, and the paths after it are not processed. *)
Theorem main_error_contract {jl : JsonLib} {yl : YamlLib}
    (in_workflows : path -> bool) (argv : list path) (w : world) :
  Jsonc.main argv w =
    (World (files (format_each argv w)) (calls (format_each argv w))
           (stdout w ++ report (failures argv w)),
     Some (match failures argv w with [] => 0 | _ :: _ => 1 end)%nat)
  /\ (forall p t,
        files w !! p = Some t ->
        Exists (fun ln => is_blank ln = false
                          /\ startswith (strip ln) [SLASH; SLASH] = false)
               (splitlines t) ->
        loads t = None ->
        format_jsonc_file p w =
          (World (files w) (calls w ++ [CallLoad t]) (stdout w), None))
  /\ (forall p, snd (format_jsonc_file p w) = None ->
        files (fst (format_jsonc_file p w)) = files w)
  /\ (forall p t,
        files w !! p = Some t -> t <> [] ->
        yaml_load (if in_workflows p then t else compress_text t) = None ->
        format_file in_workflows p w =
          (World (if in_workflows p then files w
                  else <[p := compress_text t]> (files w))
                 (calls w ++ [CallLoad (if in_workflows p then t
                                        else compress_text t)])
                 (stdout w),
           None))
  /\ (forall pre p rest w1,
        Yaml.main in_workflows pre w = (w1, Some tt) ->
        snd (format_file in_workflows p w1) = None ->
        Yaml.main in_workflows (pre ++ p :: rest) w
        = (fst (format_file in_workflows p w1), None)).
Proof.
  split; [|split; [|split; [|split]]].
  - unfold Jsonc.main, bind. rewrite main_loop_spec. cbn [app].
    destruct (failures argv w) as [|f fs] eqn:E.
    + unfold ret, report. rewrite app_nil_r.
      rewrite <- (format_each_stdout argv w). by destruct (format_each argv w).
    + unfold print, ret. cbn [files calls stdout].
      rewrite print_all_spec. cbn [files calls stdout].
      rewrite format_each_stdout. unfold report. by rewrite <- app_assoc.
  - intros p t Hp Hex Hloads. rewrite format_jsonc_file_text, Hp.
    unfold format_jsonc_text.
    destruct (extract_comments _) as [[[top leading] inline] bottom].
    pose proof (structural_line _ Hex) as Hne.
    destruct (List.filter _ _); [done|]. by rewrite Hloads.
  - intros p. apply format_jsonc_file_raise.
  - intros p t Hp Ht Hload.
    unfold format_file, bind, read_text. rewrite Hp.
    destruct t as [|c t]; [done|].
    unfold compress_comments, load_file, or_raise, bind, ret, raise,
      read_text, write_text, log_call.
    destruct (in_workflows p); cbn [negb]; cbv beta iota zeta;
      cbn [files calls stdout]; rewrite ?Hp; cbv beta iota zeta;
      cbn [files calls stdout]; rewrite ?lookup_insert_eq;
      cbv beta iota zeta; cbn [files calls stdout]; by rewrite Hload.
  - intros pre p rest w1 Hpre Hfail.
    rewrite yaml_main_app, Hpre. cbn [Yaml.main]. unfold bind.
    destruct (format_file in_workflows p w1) as [w2 [[]|]]; [done|done].
Qed.

Lemma main_error_contract_witness :
  files two_files !! bad_path = Some jsonc_malformed
  /\ Exists (fun ln => is_blank ln = false
                       /\ startswith (strip ln) [SLASH; SLASH] = false)
            (splitlines jsonc_malformed)
  /\ @loads RefJson.ref_json jsonc_malformed = None
  /\ @format_jsonc_file RefJson.ref_json bad_path two_files
     = (World (files two_files) [CallLoad jsonc_malformed] [], None)
  /\ @Jsonc.main RefJson.ref_json [bad_path; demo_path] two_files
     = (World {[ bad_path := jsonc_malformed; demo_path := scenario_out ]}
              [CallLoad jsonc_malformed;
               CallLoad scenario;
               CallDump (str "{" ++ [LF] ++ str "  'a': 1" ++ [LF] ++ str "}")]
              [str "Auto-format JSON(C) files failed for:";
               str "  bad.jsonc"],
        Some 1%nat)
  /\ @Yaml.main RefYaml.ref_yaml (fun _ => false) ([] ++ bad_path :: [demo_path])
       two_yaml_files
     = (fst (@format_file RefYaml.ref_yaml (fun _ => false) bad_path
               two_yaml_files), None).
Proof.
  destruct (@main_error_contract RefJson.ref_json RefYaml.ref_yaml
              (fun _ => false) [bad_path; demo_path] two_files)
    as (Hmain & Hparse & _).
  destruct (@main_error_contract RefJson.ref_json RefYaml.ref_yaml
              (fun _ => false) [] two_yaml_files)
    as (_ & _ & _ & _ & Hloop).
  assert (files two_files !! bad_path = Some jsonc_malformed) as Hp
    by (vm_compute; done).
  assert (Exists (fun ln => is_blank ln = false
                       /\ startswith (strip ln) [SLASH; SLASH] = false)
            (splitlines jsonc_malformed)) as Hex.
  { assert (splitlines jsonc_malformed = [str "{"; str "  'a': "])
      as -> by (vm_compute; done).
    apply Exists_cons_hd. split; vm_compute; reflexivity. }
  assert (@loads RefJson.ref_json jsonc_malformed = None) as Hl
    by (vm_compute; done).
  split; [exact Hp|]. split; [exact Hex|]. split; [exact Hl|]. split.
  - exact (Hparse bad_path jsonc_malformed Hp Hex Hl).
  - split.
    + rewrite Hmain. vm_compute. reflexivity.
    + apply (Hloop [] bad_path [demo_path] two_yaml_files eq_refl).
      vm_compute. reflexivity.
Defined.

(** Two departures from the contract.  In the YAML pipeline a file that
    fails to load has already been rewritten by [compress_comments], and
    the failure ends the loop: the next file is not formatted.  In the
    JSONC pipeline a file that holds a comment only is rewritten and not
    reported, although the parser rejects its content: the parser is not
    asked. *)
Lemma error_contract_departures :
  (let w := fst (@Yaml.main RefYaml.ref_yaml (fun _ => false)
                   [bad_path; demo_path] two_yaml_files) in
   snd (@Yaml.main RefYaml.ref_yaml (fun _ => false)
          [bad_path; demo_path] two_yaml_files) = None
   /\ files w !! bad_path = Some (file_of [str "# c"; str "a: ["])
   /\ file_of [str "# c"; str "a: ["] <> yaml_malformed
   /\ files w !! demo_path = files two_yaml_files !! demo_path)
  /\ @loads RefJson.ref_json (file_of [str "   // c   "]) = None
  /\ @Jsonc.main RefJson.ref_json [demo_path]
       (World {[demo_path := file_of [str "   // c   "]]} [] [])
     = (World {[demo_path := file_of [str "// c"]]} [] [], Some 0%nat).
Proof. vm_compute. done. Qed.

(** ** The end of the written text *)

Section TrailingNewline.

Context {lib : JsonLib}.

Lemma last_rstrip s c : last (rstrip s) = Some c -> isspace c = false.
Proof.
  induction s as [|x s IH]; simpl; [done|].
  destruct (rstrip s) as [|r rs] eqn:E.
  - destruct (isspace x) eqn:Ex; simpl; [done|]. by intros [= <-].
  - intros H. apply IH. by rewrite <- H.
Qed.

Lemma clean_end_rstrip s : clean_end (rstrip s).
Proof. intros H. by apply last_rstrip in H. Qed.

Lemma clean_end_strip s : clean_end (strip s).
Proof. apply clean_end_rstrip. Qed.

Lemma clean_end_one_line l : one_line l -> clean_end l.
Proof.
  intros Hl H. apply last_Some in H as [l' ->].
  apply Forall_app in Hl as [_ Hl]. by inversion Hl.
Qed.

Lemma clean_end_app l1 l2 : clean_end l1 -> clean_end l2 -> clean_end (l1 ++ l2).
Proof.
  unfold clean_end. intros H1 H2.
  destruct l2 as [|c l2] using rev_ind; [by rewrite app_nil_r|].
  rewrite app_assoc, last_snoc. by rewrite last_snoc in H2.
Qed.

Lemma join_cons_nonempty sep l ls : l <> [] -> join sep (l :: ls) <> [].
Proof. destruct l; [done|]. by destruct ls. Qed.

Lemma clean_end_join ls :
  Forall (fun l => l <> [] /\ clean_end l) ls -> clean_end (join [LF] ls).
Proof.
  induction 1 as [|l ls [Hne Hl] Hls IH]; [done|].
  destruct ls as [|l' ls]; [done|].
  change (join [LF] (l :: l' :: ls)) with (l ++ [LF] ++ join [LF] (l' :: ls)).
  inversion Hls as [|? ? [Hne' _] _]; subst.
  pose proof (join_cons_nonempty [LF] l' ls Hne') as HJ.
  destruct (join [LF] (l' :: ls)) as [|c r _] using rev_ind; [done|].
  unfold clean_end in *. rewrite !app_assoc, last_snoc.
  by rewrite last_snoc in IH.
Qed.

Lemma split_comment_stripped line c :
  snd (split_content_and_comment line) = Some c ->
  exists i, c = strip (drop i line).
Proof.
  pose proof (scan_line_spec line line 0%nat false false eq_refl eq_refl) as H.
  fold (split_content_and_comment line) in H.
  specialize (H ltac:(intros; lia)).
  destruct (split_content_and_comment line) as [content [c'|]]; [|done].
  intros [= <-]. destruct H as (k & _ & _ & _ & _ & ->). by exists k.
Qed.

Lemma extract_step_clean st line :
  index_clean st -> index_clean (extract_step st line).
Proof.
  intros (Ht & Hc & Hi). unfold extract_step.
  pose proof (split_comment_stripped line) as Hcom.
  destruct (split_content_and_comment line) as [content comment].
  cbn [snd] in Hcom.
  assert (forall c, comment = Some c -> clean_end c) as Hclean.
  { intros c ->. destruct (Hcom c eq_refl) as [i ->]. apply clean_end_strip. }
  destruct (negb (nonempty content)).
  { destruct (negb (in_obj st)); repeat split; cbn; try done.
    - apply Forall_app; split; [done|]. repeat constructor. apply clean_end_rstrip.
    - apply Forall_app; split; [done|]. repeat constructor. apply clean_end_strip. }
  destruct (startswith content [LBRACE]); [done|].
  destruct (startswith content [RBRACE]).
  { repeat split; cbn; try done.
    destruct comment as [c|]; [|done]. destruct (nonempty c); [|done].
    apply Forall_app; split; [done|]. repeat constructor. by apply Hclean. }
  destruct (KEY_RE_match content) as [key|].
  - destruct (cur_comments st) as [|c0 cs]; repeat split; cbn; try done;
      (destruct comment as [c|]; [|done]; destruct (nonempty c); [|done];
       apply map_Forall_insert_2; [by apply Hclean|done]).
  - destruct comment as [c|]; [|done]. destruct (nonempty c); [|done].
    repeat split; cbn; try done.
    apply Forall_app; split; [done|]. repeat constructor. by apply Hclean.
Qed.

Lemma extract_comments_clean lines top leading inline bottom :
  extract_comments lines = (top, leading, inline, bottom) ->
  Forall clean_end top /\ Forall clean_end bottom
  /\ map_Forall (fun _ c => clean_end c) inline.
Proof.
  unfold extract_comments. intros [= <- _ <- <-].
  assert (forall st, index_clean st ->
            index_clean (fold_left extract_step lines st)) as H.
  { induction lines as [|l ls IH]; intros st Hst; [done|].
    apply IH. by apply extract_step_clean. }
  assert (index_clean extract_init) as H0.
  { split; [constructor|]. split; [constructor|]. apply map_Forall_empty. }
  by destruct (H extract_init H0) as (Ht & Hc & Hi).
Qed.

Lemma before_prefix c s : before c s `prefix_of` s.
Proof.
  induction s as [|x s [k Hk]]; simpl; [by exists []|].
  destruct (x =? c); [by exists (x :: s)|].
  exists k. by rewrite Hk at 1.
Qed.

Lemma one_line_prefix k l : k `prefix_of` l -> one_line l -> one_line k.
Proof. intros [r ->] H. by apply Forall_app in H as [H _]. Qed.

Lemma reinject_step_clean leading inline st line :
  map_Forall (fun _ c => clean_end c) inline -> one_line line ->
  Forall clean_end (fst st) ->
  Forall clean_end (fst (reinject_step leading inline st line)).
Proof.
  intros Hin Hline Hout. destruct st as [out_lines stack].
  pose proof (clean_end_one_line _ Hline) as Hcl.
  unfold reinject_step. cbn [fst] in Hout.
  destruct (startswith (strip line) [RBRACE]).
  { cbn [fst]. apply Forall_app; split; [done|]. by repeat constructor. }
  destruct (KEY_RE_match line) as [key|]; cbn [fst].
  2: { apply Forall_app; split; [done|]. by repeat constructor. }
  set (fp := join [DOT] (stack ++ [key])).
  assert (Forall clean_end
            match leading !! fp with
            | Some cs => out_lines ++ map (fun c => before DQUOTE line ++ strip c) cs
            | None => out_lines
            end) as Hout1.
  { destruct (leading !! fp) as [cs|]; [|done].
    apply Forall_app; split; [done|]. apply Forall_map, Forall_true.
    intros c. apply clean_end_app; [|apply clean_end_strip].
    apply clean_end_one_line, (one_line_prefix _ line); [apply before_prefix|done]. }
  destruct (inline !! fp) as [c|] eqn:E.
  - apply Forall_app; split; [done|]. repeat constructor.
    apply clean_end_app; [done|]. apply clean_end_app; [done|].
    by apply (Hin fp).
  - apply Forall_app; split; [done|]. by repeat constructor.
Qed.

Lemma fold_reinject_clean leading inline lines : forall st,
  map_Forall (fun _ c => clean_end c) inline -> Forall one_line lines ->
  Forall clean_end (fst st) ->
  Forall clean_end (fst (fold_left (reinject_step leading inline) lines st)).
Proof.
  induction lines as [|l ls IH]; intros st Hin Hls Hst; [done|].
  inversion Hls; subst. cbn [fold_left].
  apply IH; [done|done|]. by apply reinject_step_clean.
Qed.

Lemma Forall_removelast {A} (P : A -> Prop) l :
  Forall P l -> Forall P (removelast l).
Proof.
  induction 1 as [|x l Hx Hl IH]; [done|]. simpl.
  destruct l; [constructor|]. by constructor.
Qed.

Lemma Forall_tail {A} (P : A -> Prop) l : Forall P l -> Forall P (tail l).
Proof. by destruct 1. Qed.

Lemma Forall_filter_bool {A} (P : A -> Prop) (f : A -> bool) l :
  Forall P l -> Forall (fun x => f x = true /\ P x) (List.filter f l).
Proof.
  induction 1 as [|x l Hx Hl IH]; simpl; [done|].
  destruct (f x) eqn:E; [by constructor|done].
Qed.

Lemma nonblank_nonempty l : nonempty (strip l) = true -> l <> [].
Proof. by intros H ->. Qed.

Lemma reinject_clean top leading inline bottom opening closing formatted :
  Forall clean_end top -> Forall clean_end bottom ->
  map_Forall (fun _ c => clean_end c) inline ->
  Forall one_line formatted -> one_line opening -> one_line closing ->
  Forall (fun l => nonempty (strip l) = true /\ clean_end l)
         (reinject top leading inline bottom opening closing formatted).
Proof.
  intros Ht Hb Hin Hf Ho Hc. unfold reinject.
  pose proof (fold_reinject_clean leading inline (removelast (tail formatted))
                (top ++ [opening], []) Hin
                (Forall_removelast _ _ (Forall_tail _ _ Hf))) as H.
  destruct (fold_left _ _ _) as [out_lines stack]. cbn [fst] in H.
  apply Forall_filter_bool. apply Forall_app; split; [|done].
  assert (Forall clean_end out_lines) as Hout.
  { apply H. apply Forall_app; split; [done|].
    repeat constructor. by apply clean_end_one_line. }
  destruct (decide _); [|done].
  apply Forall_app; split; [done|]. repeat constructor.
  by apply clean_end_one_line.
Qed.

Lemma trimmed_lines_clean lines :
  Forall (fun l => nonempty (strip l) = true /\ clean_end l)
         (trimmed_lines lines).
Proof.
  unfold trimmed_lines. apply Forall_map.
  induction lines as [|l ls IH]; simpl; [done|].
  destruct (nonempty (strip l)) eqn:E; [|done].
  constructor; [|done]. split; [|apply clean_end_rstrip].
  fold (strip l). by rewrite strip_idemp.
Qed.

Lemma format_jsonc_text_clean t cs out :
  format_jsonc_text t = (cs, Some out) ->
  exists out_lines,
    out = join [LF] out_lines ++ [LF]
    /\ Forall (fun l => nonempty (strip l) = true /\ clean_end l) out_lines.
Proof.
  unfold format_jsonc_text.
  destruct (extract_comments _) as [[[top leading] inline] bottom] eqn:Ex.
  apply extract_comments_clean in Ex as (Ht & Hb & Hi).
  destruct (List.filter _ _).
  { intros [= _ <-]. eexists; split; [done|]. apply trimmed_lines_clean. }
  destruct (loads t) as [data|]; [|done].
  destruct (negb (is_true data)).
  { intros [= _ <-]. eexists; split; [done|]. apply trimmed_lines_clean. }
  pose proof (splitlines_one_line (dumps_indent2 data)) as Hf.
  destruct (head _) as [opening|] eqn:Eo; [|done].
  destruct (last _) as [closing|] eqn:Ec; [|done].
  intros [= _ <-]. eexists; split; [done|].
  apply reinject_clean; try done.
  - destruct (splitlines (dumps_indent2 data)); [done|].
    injection Eo as <-. by inversion Hf.
  - apply last_Some in Ec as [l' Ec]. rewrite Ec in Hf.
    apply Forall_app in Hf as [_ Hf]. by inversion Hf.
Qed.

End TrailingNewline.

(** C9, as amended.  The text that the JSONC formatter writes is made of
    lines that are not blank, joined by line feeds and followed by one line
    feed: it ends with a line feed, and the character before that line
    feed, if there is one, is not a line feed.  When no line is left, as
    for an empty file, the text written is a single line feed.  The YAML
    formatter leaves an empty file empty. *)
Theorem written_text_trailing_newline {jl : JsonLib} {yl : YamlLib}
    (in_workflows : path -> bool) (p : path) (w : world) :
  (forall w',
     format_jsonc_file p w = (w', Some tt) ->
     exists out_lines,
       files w' !! p = Some (join [LF] out_lines ++ [LF])
       /\ Forall (fun l => is_blank l = false) out_lines
       /\ last (join [LF] out_lines) <> Some LF)
  /\ (files w !! p = Some [] ->
      format_jsonc_file p w
      = (World (<[p := [LF]]> (files w)) (calls w) (stdout w), Some tt))
  /\ (files w !! p = Some [] -> format_file in_workflows p w = (w, Some tt)).
Proof.
  split; [|split].
  - intros w'. rewrite format_jsonc_file_text.
    destruct (files w !! p) as [t|]; [|done].
    destruct (format_jsonc_text t) as [cs [out|]] eqn:E; [|done].
    intros [= <-]. apply format_jsonc_text_clean in E as (ls & -> & Hls).
    exists ls. cbn [files]. rewrite lookup_insert_eq. split; [done|]. split.
    + eapply Forall_impl; [exact Hls|]. intros l [Hl _].
      unfold is_blank. by rewrite Hl.
    + apply clean_end_join. eapply Forall_impl; [exact Hls|].
      intros l [Hl Hc]. split; [by apply nonblank_nonempty|done].
  - intros Hp. rewrite format_jsonc_file_text, Hp. cbn.
    by rewrite app_nil_r.
  - intros Hp. unfold format_file, bind, read_text. by rewrite Hp.
Qed.

Lemma written_text_trailing_newline_witness :
  let w := World {[demo_path := scenario]} [] [] in
  let w' := fst (@format_jsonc_file RefJson.ref_json demo_path w) in
  @format_jsonc_file RefJson.ref_json demo_path w = (w', Some tt)
  /\ exists out_lines,
       files w' !! demo_path = Some (join [LF] out_lines ++ [LF])
       /\ Forall (fun l => is_blank l = false) out_lines
       /\ last (join [LF] out_lines) <> Some LF.
Proof.
  assert (@format_jsonc_file RefJson.ref_json demo_path
            (World {[demo_path := scenario]} [] [])
          = (fst (@format_jsonc_file RefJson.ref_json demo_path
                    (World {[demo_path := scenario]} [] [])), Some tt)) as H
    by (vm_compute; reflexivity).
  split; [exact H|].
  exact (proj1 (@written_text_trailing_newline RefJson.ref_json
                  RefYaml.ref_yaml (fun _ => false) demo_path
                  (World {[demo_path := scenario]} [] [])) _ H).
Defined.

(** The YAML formatter leaves an empty file without any line feed. *)
Lemma yaml_empty_file_stays_empty :
  run_on (@format_file RefYaml.ref_yaml (fun _ => false)) demo_path []
  = (Some [], true)
  /\ last ([] : list N) <> Some LF.
Proof. vm_compute. done. Qed.

(** * Further properties of the two scripts *)

(** ** The key pattern *)

Section KeyPattern.

Lemma lstrip_decompose s :
  exists ws, s = ws ++ lstrip s /\ forallb isspace ws = true.
Proof.
  induction s as [|c s (ws & Hs & Hws)]; [by exists []|]. simpl.
  destruct (isspace c) eqn:E.
  - exists (c :: ws). simpl. rewrite E, Hws. split; [by rewrite Hs at 1|done].
  - by exists [].
Qed.

Lemma lstrip_spaces ws s :
  forallb isspace ws = true -> lstrip (ws ++ s) = lstrip s.
Proof.
  induction ws as [|c ws IH]; [done|]. simpl.
  intros [Hc Hws]%andb_prop. rewrite Hc. by apply IH.
Qed.

Lemma before_decompose c s :
  s = before c s ++ drop (length (before c s)) s /\ c ∉ before c s.
Proof.
  induction s as [|x s [IH1 IH2]]; simpl.
  - split; [done|]. apply not_elem_of_nil.
  - destruct (x =? c) eqn:E; simpl.
    + split; [done|]. apply not_elem_of_nil.
    + split; [by rewrite <- IH1|].
      apply not_elem_of_cons. split; [|done].
      intros ->. by rewrite N.eqb_refl in E.
Qed.

Lemma before_app c k r : c ∉ k -> before c (k ++ c :: r) = k.
Proof.
  induction k as [|x k IH]; simpl.
  - by rewrite N.eqb_refl.
  - intros [Hx Hk]%not_elem_of_cons.
    destruct (x =? c) eqn:E; [by apply N.eqb_eq in E|]. by rewrite IH.
Qed.

(** X1. [KEY_RE] matches a text exactly when it is made of white space, a
    double quote, a key that is not empty and holds no double quote, a
    double quote and a colon, followed by anything; the group is that key. *)
Theorem KEY_RE_match_iff (s key : text) :
  KEY_RE_match s = Some key <->
  exists ws rest,
    s = ws ++ [DQUOTE] ++ key ++ [DQUOTE; COLON] ++ rest
    /\ forallb isspace ws = true /\ key <> [] /\ DQUOTE ∉ key.
Proof.
  unfold KEY_RE_match. split.
  - destruct (lstrip_decompose s) as (ws & Hs & Hws).
    destruct (lstrip s) as [|q body]; [done|].
    destruct (q =? DQUOTE) eqn:Eq; [|done]. apply N.eqb_eq in Eq as ->.
    destruct (before_decompose DQUOTE body) as [Hb Hnot].
    destruct (before DQUOTE body) as [|k ks] eqn:Ek; [done|].
    destruct (drop _ body) as [|q' [|c rest]]; [done|done|].
    destruct ((q' =? DQUOTE) && (c =? COLON)) eqn:E; [|done].
    apply andb_prop in E as [->%N.eqb_eq ->%N.eqb_eq].
    intros [= <-]. exists ws, rest.
    split; [|done]. by rewrite Hs, Hb.
  - intros (ws & rest & -> & Hws & Hkey & Hnot).
    rewrite lstrip_spaces by done. cbn [app lstrip].
    change (isspace DQUOTE) with false. cbn iota. rewrite N.eqb_refl.
    replace (key ++ [DQUOTE; COLON] ++ rest)
      with (key ++ DQUOTE :: COLON :: rest) by done.
    rewrite before_app by done.
    destruct key as [|k ks]; [done|].
    rewrite (drop_app_length (k :: ks)). by rewrite !N.eqb_refl.
Qed.

End KeyPattern.

(** ** The scanner on its own output *)

Section ScannerMore.

Lemma split_all_inside line :
  (forall i, marker_at line i -> inside_string line i = true) ->
  split_content_and_comment line = (rstrip line, None).
Proof.
  intros Hall.
  pose proof (scan_line_spec line line 0%nat false false eq_refl eq_refl) as H.
  fold (split_content_and_comment line) in H.
  specialize (H ltac:(intros; lia)).
  destruct (split_content_and_comment line) as [content [c|]].
  - destruct H as (k & Hm & Hin & _). by rewrite (Hall k Hm) in Hin.
  - by destruct H as [-> _].
Qed.

Lemma prefix_markers content line k :
  content `prefix_of` take k line ->
  (forall j, (j < k)%nat -> marker_at line j -> inside_string line j = true) ->
  forall j, marker_at content j -> inside_string content j = true.
Proof.
  intros [r Hr] Hlt j [H1 H2].
  assert (S j < length content)%nat as Hj by by apply lookup_lt_Some in H2.
  assert (length (take k line) = length content + length r)%nat as Hlen
    by by rewrite Hr, length_app.
  assert (length content <= k)%nat as Hk.
  { rewrite length_take in Hlen. lia. }
  assert (forall i x, content !! i = Some x -> line !! i = Some x) as Hlook.
  { intros i x Hi.
    assert (take k line !! i = Some x) as Ht
      by (rewrite Hr; by apply lookup_app_l_Some).
    by apply lookup_take_Some in Ht as [? _]. }
  assert (take j content = take j line) as Htake.
  { assert (take j (take k line) = take j content) as <-
      by (rewrite Hr, take_app_le; [done|lia]).
    rewrite take_take. f_equal. lia. }
  unfold inside_string, flags_before. rewrite Htake.
  apply Hlt; [lia|]. split; by apply Hlook.
Qed.

(** X2. The content that the scanner returns holds no comment marker
    outside a string and no trailing white space: scanning it again
    returns it unchanged, without a comment. *)
Theorem split_content_and_comment_content_stable (line : text) :
  split_content_and_comment (fst (split_content_and_comment line))
  = (fst (split_content_and_comment line), None).
Proof.
  pose proof (scan_line_spec line line 0%nat false false eq_refl eq_refl) as H.
  fold (split_content_and_comment line) in H.
  specialize (H ltac:(intros; lia)).
  destruct (split_content_and_comment line) as [content [c|]]; cbn [fst].
  - destruct H as (k & _ & _ & Hlt & -> & _).
    rewrite split_all_inside; [by rewrite rstrip_idemp|].
    apply (prefix_markers _ line k); [apply rstrip_prefix|done].
  - destruct H as [-> Hall].
    rewrite split_all_inside; [by rewrite rstrip_idemp|].
    apply (prefix_markers _ line (length line)).
    + rewrite firstn_all. apply rstrip_prefix.
    + intros j _. apply Hall.
Qed.

End ScannerMore.

(** ** The comment index *)

Section Index.

Lemma isspace_not_special c :
  isspace c = true ->
  (c =? DQUOTE) = false /\ (c =? BACKSLASH) = false /\ (c =? SLASH) = false.
Proof.
  intros Hc. repeat split; apply N.eqb_neq; by intros ->.
Qed.

Lemma scan_line_spaces line ws : forall i rest,
  forallb isspace ws = true ->
  scan_line line i (ws ++ rest) false false
  = scan_line line (i + length ws) rest false false.
Proof.
  induction ws as [|c ws IH]; intros i rest Hws.
  - by rewrite Nat.add_0_r.
  - apply andb_prop in Hws as [Hc Hws].
    destruct (isspace_not_special c Hc) as (E1 & E2 & E3).
    cbn [app scan_line]. rewrite E1, E2, E3. cbn [andb negb].
    rewrite IH by done. f_equal. cbn [length]. lia.
Qed.

Lemma blank_all_spaces l : is_blank l = true -> forallb isspace l = true.
Proof.
  unfold is_blank. intros H.
  assert (strip l = []) as Hs by by destruct (strip l).
  apply isspace_all_rstrip, isspace_all_lstrip in Hs.
  destruct (lstrip_decompose l) as (ws & Hl & Hws).
  rewrite lstrip_idemp in Hs. rewrite Hs, app_nil_r in Hl. by rewrite Hl.
Qed.

Lemma comment_line_decompose l :
  startswith (strip l) [SLASH; SLASH] = true ->
  exists ws r, l = ws ++ SLASH :: SLASH :: r /\ forallb isspace ws = true.
Proof.
  intros H. destruct (lstrip_decompose l) as (ws & Hl & Hws).
  exists ws. unfold strip in H.
  destruct (rstrip_prefix (lstrip l)) as [k Hk].
  unfold startswith in H.
  destruct (rstrip (lstrip l)) as [|a [|b r]];
    [done|by rewrite andb_false_r in H|].
  apply andb_prop in H as [->%N.eqb_eq H].
  apply andb_prop in H as [->%N.eqb_eq _].
  exists (r ++ k). split; [|done]. rewrite Hl at 1. by rewrite Hk.
Qed.

(** The content of a blank line and of a comment-only line is empty. *)
Lemma comment_only_content l :
  is_blank l = true \/ startswith (strip l) [SLASH; SLASH] = true ->
  fst (split_content_and_comment l) = [].
Proof.
  unfold split_content_and_comment. intros [H|H].
  - apply blank_all_spaces in H.
    rewrite <- (app_nil_r l) at 2. rewrite scan_line_spaces by done.
    cbn [scan_line fst]. by apply isspace_all_rstrip.
  - apply comment_line_decompose in H as (ws & r & -> & Hws).
    rewrite scan_line_spaces by done. cbn [scan_line Nat.add].
    change (SLASH =? DQUOTE) with false.
    change (SLASH =? BACKSLASH) with false. cbn [andb negb].
    rewrite N.eqb_refl.
    replace (S (length ws)) with (length ws + 1)%nat by lia.
    rewrite lookup_app_r by lia.
    replace (length ws + 1 - length ws)%nat with 1%nat by lia.
    cbn [lookup list_lookup]. rewrite N.eqb_refl. cbn [andb fst].
    rewrite take_app_length. by apply isspace_all_rstrip.
Qed.

Lemma fold_extract_top lines : forall st,
  in_obj st = false ->
  Forall (fun l => fst (split_content_and_comment l) = []) lines ->
  fold_left extract_step lines st
  = ExtractState (top st ++ map rstrip lines) (leading st) (inline st)
                 (cur_comments st) (path_stack st) false.
Proof.
  induction lines as [|l ls IH]; intros st Hst Hall; cbn [fold_left map].
  - rewrite app_nil_r, <- Hst. by destruct st.
  - inversion Hall as [|? ? Hl Hls]; subst.
    assert (extract_step st l
            = ExtractState (top st ++ [rstrip l]) (leading st) (inline st)
                           (cur_comments st) (path_stack st) (in_obj st)) as ->.
    { unfold extract_step.
      destruct (split_content_and_comment l) as [content comment].
      cbn [fst] in Hl. subst content. cbn [nonempty negb].
      by rewrite Hst. }
    rewrite IH by done. cbn [top leading inline cur_comments path_stack].
    by rewrite <- app_assoc.
Qed.

(** X3. When every line is blank or holds a comment only, the extraction
    pass files every line, without its trailing white space, under the top
    comments, and leaves the three other containers empty. *)
Theorem extract_comments_comment_only (lines : list text) :
  Forall (fun l => is_blank l = true
                   \/ startswith (strip l) [SLASH; SLASH] = true) lines ->
  extract_comments lines = (map rstrip lines, ∅, ∅, []).
Proof.
  intros Hall. unfold extract_comments.
  rewrite (fold_extract_top lines extract_init eq_refl); [done|].
  eapply Forall_impl; [exact Hall|]. apply comment_only_content.
Qed.

Lemma extract_comments_comment_only_witness :
  Forall (fun l => is_blank l = true
                   \/ startswith (strip l) [SLASH; SLASH] = true)
         [str "  // one  "; str "   "; str "//two"]
  /\ extract_comments [str "  // one  "; str "   "; str "//two"]
     = ([str "  // one"; []; str "//two"], ∅, ∅, []).
Proof.
  assert (Forall (fun l => is_blank l = true
                   \/ startswith (strip l) [SLASH; SLASH] = true)
            [str "  // one  "; str "   "; str "//two"]) as H.
  { repeat first
      [ apply Forall_nil_2
      | apply Forall_cons_2;
        [first [left; vm_compute; reflexivity
               | right; vm_compute; reflexivity]|] ]. }
  split; [exact H|].
  exact (extract_comments_comment_only _ H).
Defined.

Lemma extract_step_in_obj st l :
  in_obj st = true ->
  in_obj (extract_step st l) = true /\ top (extract_step st l) = top st.
Proof.
  intros Hst. unfold extract_step.
  destruct (split_content_and_comment l) as [content comment].
  rewrite Hst. cbn [negb].
  destruct (negb (nonempty content)); [done|].
  destruct (startswith content [LBRACE]); [done|].
  destruct (startswith content [RBRACE]); [done|].
  destruct (KEY_RE_match content) as [key|].
  - by destruct (cur_comments st).
  - destruct comment as [c|]; [|done]. by destruct (nonempty c).
Qed.

Lemma fold_extract_in_obj lines : forall st,
  in_obj st = true ->
  in_obj (fold_left extract_step lines st) = true
  /\ top (fold_left extract_step lines st) = top st.
Proof.
  induction lines as [|l ls IH]; intros st Hst; [done|]. cbn [fold_left].
  destruct (extract_step_in_obj st l Hst) as [H1 H2].
  destruct (IH _ H1) as [H3 H4]. split; [done|]. by rewrite H4.
Qed.

Lemma extract_step_opens st l :
  startswith (fst (split_content_and_comment l)) [LBRACE] = true ->
  in_obj (extract_step st l) = true.
Proof.
  unfold extract_step.
  destruct (split_content_and_comment l) as [content comment]. cbn [fst].
  intros H. destruct content as [|c content]; [done|].
  cbn [nonempty negb]. by rewrite H.
Qed.

(** X4. Once a line whose content starts with an opening brace has been
    read, the top comments are final: no later line adds to them. *)
Theorem extract_comments_top_final (pre post : list text) (l : text) :
  l ∈ pre ->
  startswith (fst (split_content_and_comment l)) [LBRACE] = true ->
  (extract_comments (pre ++ post)).1.1.1 = (extract_comments pre).1.1.1.
Proof.
  intros Hl Hopen. unfold extract_comments. cbn [fst].
  rewrite fold_left_app.
  apply fold_extract_in_obj.
  apply list_elem_of_split in Hl as (l1 & l2 & ->).
  rewrite fold_left_app. cbn [fold_left].
  apply fold_extract_in_obj. by apply extract_step_opens.
Qed.

Lemma extract_comments_top_final_witness :
  str "{" ∈ [str "// head"; str "{"]
  /\ startswith (fst (split_content_and_comment (str "{"))) [LBRACE] = true
  /\ (extract_comments ([str "// head"; str "{"] ++ [str "// in"; str "}"])).1.1.1
     = (extract_comments [str "// head"; str "{"]).1.1.1.
Proof.
  assert (str "{" ∈ [str "// head"; str "{"]) as H1
    by (apply list_elem_of_In; right; left; reflexivity).
  assert (startswith (fst (split_content_and_comment (str "{"))) [LBRACE]
          = true) as H2 by reflexivity.
  split; [exact H1|]. split; [exact H2|].
  exact (extract_comments_top_final _ _ _ H1 H2).
Defined.

Lemma split_comment_marker line c :
  snd (split_content_and_comment line) = Some c ->
  startswith c [SLASH; SLASH] = true.
Proof.
  pose proof (scan_line_spec line line 0%nat false false eq_refl eq_refl) as H.
  fold (split_content_and_comment line) in H.
  specialize (H ltac:(intros; lia)).
  destruct (split_content_and_comment line) as [content [c'|]]; [|done].
  intros [= <-]. destruct H as (k & [H1 H2] & _ & _ & _ & ->).
  destruct (drop k line) as [|a [|b r]] eqn:E.
  - apply (f_equal length) in E. rewrite length_drop in E.
    apply lookup_lt_Some in H1. simpl in E. lia.
  - apply drop_cons_lookup in E as [_ E].
    apply (f_equal length) in E. rewrite length_drop in E.
    apply lookup_lt_Some in H2. simpl in E. lia.
  - apply drop_cons_lookup in E as [Ea E].
    apply drop_cons_lookup in E as [Eb _].
    rewrite H1 in Ea. rewrite H2 in Eb. inversion Ea; inversion Eb; subst.
    apply strip_marker.
Qed.

Lemma extract_step_wf st l :
  index_wf (leading st) (inline st) ->
  index_wf (leading (extract_step st l)) (inline (extract_step st l)).
Proof.
  intros [Hl Hi]. unfold extract_step.
  pose proof (split_comment_marker l) as Hm.
  destruct (split_content_and_comment l) as [content comment].
  cbn [snd] in Hm.
  destruct (negb (nonempty content)); [by destruct (negb (in_obj st))|].
  destruct (startswith content [LBRACE]); [done|].
  destruct (startswith content [RBRACE]); [done|].
  destruct (KEY_RE_match content) as [key|].
  - assert (map_Forall (fun _ c => startswith c [SLASH; SLASH] = true)
              match comment with
              | Some c =>
                  if nonempty c
                  then <[full_path (path_stack st) key := c]> (inline st)
                  else inline st
              | None => inline st
              end) as Hi'.
    { destruct comment as [c|]; [|done]. destruct (nonempty c); [|done].
      apply map_Forall_insert_2; [by apply Hm|done]. }
    destruct (cur_comments st) as [|c0 cs] eqn:E; split; cbn; try done.
    by apply map_Forall_insert_2.
  - destruct comment as [c|]; [|done]. by destruct (nonempty c).
Qed.

(** X5. The index that the extraction pass returns is well formed: a key
    is filed under the leading comments only with a list of comments that
    is not empty, and every inline comment starts with two slashes. *)
Theorem extract_comments_index_wf (lines : list text) :
  index_wf (extract_comments lines).1.1.2 (extract_comments lines).1.2.
Proof.
  unfold extract_comments. cbn [fst snd].
  assert (forall st, index_wf (leading st) (inline st) ->
            index_wf (leading (fold_left extract_step lines st))
                     (inline (fold_left extract_step lines st))) as H.
  { induction lines as [|l ls IH]; intros st Hst; [done|].
    apply IH. by apply extract_step_wf. }
  apply H. split; apply map_Forall_empty.
Qed.

End Index.

(** ** Reinjection and the JSONC pipeline *)

Section JsoncMore.

Context {lib : JsonLib}.

Lemma reinject_step_empty out stack line :
  fst (reinject_step ∅ ∅ (out, stack) line) = out ++ [line].
Proof.
  unfold reinject_step.
  destruct (startswith (strip line) [RBRACE]); [done|].
  destruct (KEY_RE_match line) as [key|]; [|done].
  by rewrite !lookup_empty.
Qed.

Lemma fold_reinject_empty lines : forall st,
  fst (fold_left (reinject_step ∅ ∅) lines st) = fst st ++ lines.
Proof.
  induction lines as [|l ls IH]; intros [out stack]; cbn [fold_left fst].
  - by rewrite app_nil_r.
  - rewrite IH.
    destruct (reinject_step ∅ ∅ (out, stack) l) as [out' stack'] eqn:E.
    pose proof (reinject_step_empty out stack l) as H. rewrite E in H.
    cbn [fst] in *. subst out'. by rewrite <- app_assoc.
Qed.

(** X6. Without any comment in the index, reinjection returns the lines of
    the canonical text that are not blank, in their order, and nothing
    else. *)
Theorem reinject_without_comments (opening closing : text)
    (formatted : list text) :
  head formatted = Some opening -> last formatted = Some closing ->
  reinject [] ∅ ∅ [] opening closing formatted
  = List.filter (fun ln => nonempty (strip ln)) formatted.
Proof.
  intros Hh Hl. unfold reinject.
  pose proof (fold_reinject_empty (removelast (tail formatted))
                ([] ++ [opening], [])) as H.
  destruct (fold_left _ _ _) as [out stack]. cbn [fst app] in H. subst out.
  rewrite app_nil_r. f_equal.
  destruct formatted as [|a tl]; [done|]. injection Hh as ->.
  destruct tl as [|b tl].
  - destruct (decide _) as [Hn|]; [cbn [length] in Hn; lia|done].
  - rewrite last_cons_cons in Hl. apply last_Some in Hl as [l' Hl'].
    cbn [tail]. rewrite Hl', removelast_last.
    destruct (decide _) as [|Hn]; [done|].
    cbn [length] in Hn. rewrite length_app in Hn. cbn [length] in Hn. lia.
Qed.

Lemma reinject_without_comments_witness :
  head nested_canonical = Some (str "{")
  /\ last nested_canonical = Some (str "}")
  /\ reinject [] ∅ ∅ [] (str "{") (str "}") nested_canonical
     = List.filter (fun ln => nonempty (strip ln)) nested_canonical.
Proof.
  split; [reflexivity|]. split; [reflexivity|].
  exact (reinject_without_comments (str "{") (str "}") nested_canonical
           eq_refl eq_refl).
Defined.

(** X7. When the file holds a line that is neither blank nor a comment and
    the parsed data is false in a condition (an empty object, say), the
    file is rewritten as its non-blank lines, each stripped, and the
    serialiser is not called. *)
Theorem format_jsonc_file_empty_data (p : path) (w : world) (t : text)
    (data : value) :
  files w !! p = Some t ->
  Exists (fun ln => is_blank ln = false
                    /\ startswith (strip ln) [SLASH; SLASH] = false)
         (splitlines t) ->
  loads t = Some data -> is_true data = false ->
  format_jsonc_file p w =
    (World (<[p := join [LF]
                     (map strip
                        (List.filter (fun ln => negb (is_blank ln))
                           (splitlines t))) ++ [LF]]> (files w))
           (calls w ++ [CallLoad t]) (stdout w),
     Some tt).
Proof.
  intros Hp Hex Hl Hd. rewrite format_jsonc_file_text, Hp.
  unfold format_jsonc_text.
  destruct (extract_comments _) as [[[top leading] inline] bottom].
  pose proof (structural_line _ Hex) as Hne.
  destruct (List.filter _ _); [done|].
  by rewrite Hl, Hd, trimmed_lines_LF.
Qed.

(** X8. Formatting the file at [p] changes no other file, prints nothing,
    and only adds to the log of the calls made to the library. *)
Theorem format_jsonc_file_frame (p q : path) (w : world) :
  p <> q ->
  files (fst (format_jsonc_file p w)) !! q = files w !! q
  /\ stdout (fst (format_jsonc_file p w)) = stdout w
  /\ calls w `prefix_of` calls (fst (format_jsonc_file p w)).
Proof.
  intros Hpq. split; [by apply format_jsonc_file_other|].
  split; [apply format_jsonc_file_stdout|].
  rewrite format_jsonc_file_text.
  destruct (files w !! p); [|done].
  destruct (format_jsonc_text _) as [cs [out|]]; by exists cs.
Qed.

Lemma format_jsonc_file_local (p : path) (w1 w2 : world) :
  files w1 !! p = files w2 !! p ->
  files (fst (format_jsonc_file p w1)) !! p
  = files (fst (format_jsonc_file p w2)) !! p
  /\ snd (format_jsonc_file p w1) = snd (format_jsonc_file p w2).
Proof.
  intros H. rewrite !format_jsonc_file_text, <- H.
  destruct (files w1 !! p) as [t|] eqn:E;
    [|cbn [fst snd]; by rewrite E, <- H].
  destruct (format_jsonc_text t) as [cs [out|]]; cbn [fst snd files].
  - by rewrite !lookup_insert_eq.
  - by rewrite E, <- H.
Qed.

Lemma format_each_other (argv : list path) : forall w q,
  q ∉ argv -> files (format_each argv w) !! q = files w !! q.
Proof.
  induction argv as [|a argv IH]; intros w q Hq; [done|].
  apply not_elem_of_cons in Hq as [Hqa Hq]. cbn [format_each].
  rewrite IH by done. by apply format_jsonc_file_other.
Qed.

(** Formatting the files of a list of keys without repetition. *)
Lemma format_each_independent (argv : list path) (w : world) :
  NoDup argv ->
  (forall p, p ∈ argv ->
     files (format_each argv w) !! p
     = files (fst (format_jsonc_file p w)) !! p)
  /\ (forall p, p ∈ failures argv w <->
        p ∈ argv /\ snd (format_jsonc_file p w) = None)
  /\ (forall q, q ∉ argv -> files (format_each argv w) !! q = files w !! q).
Proof.
  intros Hnd. split; [|split]; [| |intros q; apply format_each_other].
  - revert w. induction Hnd as [|a argv Ha Hnd IH]; intros w p Hp.
    { by apply elem_of_nil in Hp. }
    cbn [format_each]. apply elem_of_cons in Hp as [->|Hp].
    + by apply format_each_other.
    + rewrite IH by done.
      apply format_jsonc_file_local, format_jsonc_file_other.
      by intros ->.
  - revert w. induction Hnd as [|a argv Ha Hnd IH]; intros w p.
    { cbn. split; [by intros ?%elem_of_nil|by intros [?%elem_of_nil _]]. }
    cbn [failures].
    destruct (format_jsonc_file a w) as [w1 r] eqn:E.
    assert (forall q, q ∈ argv ->
              snd (format_jsonc_file q w1) = snd (format_jsonc_file q w))
      as Hloc.
    { intros q Hq. apply format_jsonc_file_local.
      replace w1 with (fst (format_jsonc_file a w)) by by rewrite E.
      apply format_jsonc_file_other. by intros ->. }
    assert (p ∈ failures argv w1 <->
            p ∈ argv /\ snd (format_jsonc_file p w) = None) as IH'.
    { rewrite IH. split; intros [H1 H2]; (split; [done|]).
      - by rewrite <- Hloc.
      - by rewrite Hloc. }
    destruct r as [[]|]; rewrite ?elem_of_cons, IH'.
    + split.
      * intros [H1 H2]. split; [by right|done].
      * intros [[->|H1] H2]; [by rewrite E in H2|done].
    + split.
      * intros [->|[H1 H2]]; [split; [by left|by rewrite E]|].
        split; [by right|done].
      * intros [[->|H1] H2]; [by left|by right].
Qed.

Lemma main_loop_at_spec resolve (argv : list path) : forall acc w,
  main_loop_at resolve argv acc w
  = (format_each (map resolve argv) w,
     Some (acc ++ failures_at resolve argv w)).
Proof.
  induction argv as [|p argv IH]; intros acc w; cbn.
  - by rewrite app_nil_r.
  - unfold bind, try_except.
    destruct (format_jsonc_file (resolve p) w) as [w' [[]|]]; cbn; rewrite IH.
    + done.
    + by rewrite <- app_assoc.
Qed.

(** With every argument naming the file of its own text, [main_at] is
    [main]. *)
Lemma main_at_id (argv : list path) (w : world) :
  main_at (fun p => p) argv w = Jsonc.main argv w.
Proof.
  unfold main_at, Jsonc.main, bind.
  assert (forall acc w0,
            main_loop_at (fun p => p) argv acc w0 = main_loop argv acc w0) as ->.
  { induction argv as [|p argv IH]; intros acc w0; [done|].
    cbn [main_loop_at main_loop]. unfold bind.
    destruct (try_except _ w0) as [w1 [r|]]; [apply IH|done]. }
  done.
Qed.

Lemma main_at_files resolve (argv : list path) (w : world) :
  files (fst (main_at resolve argv w))
  = files (format_each (map resolve argv) w)
  /\ snd (main_at resolve argv w)
     = Some (match failures_at resolve argv w with [] => 0 | _ :: _ => 1 end)%nat.
Proof.
  unfold main_at, bind. rewrite main_loop_at_spec. cbn [app].
  destruct (failures_at resolve argv w) as [|f fs]; [done|].
  unfold print, ret. rewrite print_all_spec. done.
Qed.

Lemma failures_at_elem resolve (argv : list path) : forall w p,
  NoDup (map resolve argv) ->
  p ∈ failures_at resolve argv w <->
  p ∈ argv /\ snd (format_jsonc_file (resolve p) w) = None.
Proof.
  induction argv as [|a argv IH]; intros w p Hnd.
  { cbn. split; [by intros ?%elem_of_nil|by intros [?%elem_of_nil _]]. }
  cbn [map] in Hnd. apply NoDup_cons in Hnd as [Ha Hnd].
  cbn [failures_at].
  destruct (format_jsonc_file (resolve a) w) as [w1 r] eqn:E.
  assert (forall q, q ∈ argv ->
            snd (format_jsonc_file (resolve q) w1)
            = snd (format_jsonc_file (resolve q) w)) as Hloc.
  { intros q Hq. apply format_jsonc_file_local.
    replace w1 with (fst (format_jsonc_file (resolve a) w)) by by rewrite E.
    apply format_jsonc_file_other. intros Heq. apply Ha.
    rewrite Heq. by apply list_elem_of_fmap_2. }
  assert (p ∈ failures_at resolve argv w1 <->
          p ∈ argv /\ snd (format_jsonc_file (resolve p) w) = None) as IH'.
  { rewrite IH by done. split; intros [H1 H2]; (split; [done|]).
    - by rewrite <- Hloc.
    - by rewrite Hloc. }
  destruct r as [[]|]; rewrite ?elem_of_cons, IH'.
  + split.
    * intros [H1 H2]. split; [by right|done].
    * intros [[->|H1] H2]; [by rewrite E in H2|done].
  + split.
    * intros [->|[H1 H2]]; [split; [by left|by rewrite E]|].
      split; [by right|done].
    * intros [[->|H1] H2]; [by left|by right].
Qed.

(** X9. When no two arguments name the same file, [main] formats the files
    independently: the file of each argument ends as if it had been
    formatted alone, an argument is reported as failed exactly when
    formatting its file alone fails, the status is 1 exactly when an
    argument is reported, and the files that no argument names are left as
    they were. *)
Theorem main_formats_independently (resolve : path -> path)
    (argv : list path) (w : world) :
  NoDup (map resolve argv) ->
  (forall p, p ∈ argv ->
     files (fst (main_at resolve argv w)) !! resolve p
     = files (fst (format_jsonc_file (resolve p) w)) !! resolve p)
  /\ (forall p, p ∈ failures_at resolve argv w <->
        p ∈ argv /\ snd (format_jsonc_file (resolve p) w) = None)
  /\ snd (main_at resolve argv w)
     = Some (match failures_at resolve argv w with
             | [] => 0 | _ :: _ => 1 end)%nat
  /\ (forall q, q ∉ map resolve argv ->
        files (fst (main_at resolve argv w)) !! q = files w !! q).
Proof.
  intros Hnd. destruct (main_at_files resolve argv w) as [Hf Hs].
  rewrite Hf.
  destruct (format_each_independent (map resolve argv) w Hnd)
    as (Heach & _ & Hother).
  split; [|split; [|split]]; [| |done|done].
  - intros p Hp. apply Heach. by apply list_elem_of_fmap_2.
  - intros p. by apply failures_at_elem.
Qed.

End JsoncMore.

Lemma main_formats_independently_witness :
  NoDup (map (fun p : list N => p) [bad_path; demo_path])
  /\ files (fst (@main_at RefJson.ref_json (fun p => p)
                   [bad_path; demo_path] two_files)) !! demo_path
     = files (fst (@format_jsonc_file RefJson.ref_json demo_path two_files))
         !! demo_path.
Proof.
  assert (NoDup (map (fun p : list N => p) [bad_path; demo_path])) as H.
  { cbn [map]. apply NoDup_cons_2; [|apply NoDup_singleton].
    apply not_elem_of_cons. split; [done|apply not_elem_of_nil]. }
  split; [exact H|].
  apply (proj1 (@main_formats_independently RefJson.ref_json (fun p => p)
                  [bad_path; demo_path] two_files H)).
  apply list_elem_of_In. right. left. reflexivity.
Defined.

Lemma format_jsonc_file_empty_data_witness :
  let w := World {[demo_path := jsonc_empty_object]} [] [] in
  files w !! demo_path = Some jsonc_empty_object
  /\ Exists (fun ln => is_blank ln = false
                       /\ startswith (strip ln) [SLASH; SLASH] = false)
            (splitlines jsonc_empty_object)
  /\ RefJson.ref_loads jsonc_empty_object = Some (RefJson.JObj [])
  /\ @format_jsonc_file RefJson.ref_json demo_path w
     = (World {[demo_path := file_of [str "{"; str "// c"; str "}"]]}
              [CallLoad jsonc_empty_object] [], Some tt).
Proof.
  assert (Exists (fun ln => is_blank ln = false
                       /\ startswith (strip ln) [SLASH; SLASH] = false)
            (splitlines jsonc_empty_object)) as Hex.
  { assert (splitlines jsonc_empty_object = [str "{"; str "  // c"; str "}"])
      as -> by (vm_compute; done).
    apply Exists_cons_hd. split; vm_compute; reflexivity. }
  assert (RefJson.ref_loads jsonc_empty_object = Some (RefJson.JObj []))
    as Hl by (vm_compute; reflexivity).
  split; [apply lookup_singleton_eq|]. split; [exact Hex|].
  split; [exact Hl|].
  rewrite (@format_jsonc_file_empty_data RefJson.ref_json demo_path
             (World {[demo_path := jsonc_empty_object]} [] [])
             jsonc_empty_object (RefJson.JObj [])
             (lookup_singleton_eq demo_path jsonc_empty_object)
             Hex Hl eq_refl).
  cbn [files calls stdout]. rewrite insert_singleton_eq.
  vm_compute. reflexivity.
Defined.

Lemma format_jsonc_file_frame_witness :
  bad_path <> demo_path
  /\ files (fst (@format_jsonc_file RefJson.ref_json bad_path two_files))
       !! demo_path
     = files two_files !! demo_path.
Proof.
  assert (bad_path <> demo_path) as H by done.
  split; [exact H|].
  exact (proj1 (@format_jsonc_file_frame RefJson.ref_json bad_path demo_path
                  two_files H)).
Defined.

(** ** Pass-through of comment-only JSONC files, twice *)

Section PassThrough.

Context {lib : JsonLib}.

Lemma trimmed_wf ls :
  Forall (fun l => is_blank l = false /\ strip l = l)
         (map strip (List.filter (fun ln => negb (is_blank ln)) ls)).
Proof.
  induction ls as [|l ls IH]; cbn [List.filter map]; [done|].
  destruct (is_blank l) eqn:E; cbn [negb map]; [done|].
  constructor; [|done]. by rewrite is_blank_strip, strip_idemp.
Qed.

Lemma trimmed_fixed ls :
  Forall (fun l => is_blank l = false /\ strip l = l) ls ->
  map strip (List.filter (fun ln => negb (is_blank ln)) ls) = ls.
Proof.
  induction 1 as [|l ls [Hb Hs] _ IH]; [done|].
  cbn [List.filter]. rewrite Hb. cbn [negb map]. by rewrite Hs, IH.
Qed.

Lemma trimmed_one_line ls :
  Forall one_line ls ->
  Forall one_line (map strip (List.filter (fun ln => negb (is_blank ln)) ls)).
Proof.
  induction 1 as [|l ls Hl _ IH]; cbn [List.filter map]; [done|].
  destruct (negb (is_blank l)); cbn [map]; [|done].
  constructor; [by apply one_line_strip|done].
Qed.

Lemma splitlines_trim_text t :
  splitlines (trim_text t)
  = match map strip (List.filter (fun ln => negb (is_blank ln))
                       (splitlines t)) with
    | [] => [[]]
    | l :: ls => l :: ls
    end.
Proof.
  unfold trim_text.
  pose proof (trimmed_one_line _ (splitlines_one_line t)) as H.
  destruct (map strip _) as [|l ls]; [done|].
  rewrite (join_LF_file_of (l :: ls)) by done. by apply splitlines_file_of.
Qed.

Lemma trim_text_idemp t : trim_text (trim_text t) = trim_text t.
Proof.
  unfold trim_text at 1. rewrite splitlines_trim_text. unfold trim_text.
  pose proof (trimmed_wf (splitlines t)) as H.
  destruct (map strip _) as [|l ls]; [done|]. by rewrite trimmed_fixed.
Qed.

Lemma trim_text_comment_only t :
  Forall (fun ln => is_blank ln = true
                    \/ startswith (strip ln) [SLASH; SLASH] = true)
         (splitlines t) ->
  Forall (fun ln => is_blank ln = true
                    \/ startswith (strip ln) [SLASH; SLASH] = true)
         (splitlines (trim_text t)).
Proof.
  intros H. rewrite splitlines_trim_text.
  assert (Forall (fun ln => is_blank ln = true
                    \/ startswith (strip ln) [SLASH; SLASH] = true)
            (map strip (List.filter (fun ln => negb (is_blank ln))
                          (splitlines t)))) as H'.
  { induction H as [|l ls Hl _ IH]; cbn [List.filter map]; [done|].
    destruct (is_blank l) eqn:E; cbn [negb map]; [done|].
    constructor; [|done]. right. rewrite strip_idemp.
    by destruct Hl as [Hl|Hl]. }
  destruct (map strip _); [|done].
  constructor; [by left|done].
Qed.

Lemma format_comment_only (p : path) (w : world) (t : text) :
  files w !! p = Some t ->
  Forall (fun ln => is_blank ln = true
                    \/ startswith (strip ln) [SLASH; SLASH] = true)
         (splitlines t) ->
  format_jsonc_file p w
  = (World (<[p := trim_text t]> (files w)) (calls w) (stdout w), Some tt).
Proof.
  intros Hp Hall. rewrite format_jsonc_file_text, Hp.
  unfold format_jsonc_text.
  destruct (extract_comments _) as [[[top leading] inline] bottom].
  rewrite (no_structural_line _ Hall), trimmed_lines_LF.
  by rewrite app_nil_r.
Qed.

(** X10. On a file made of comment lines and blank lines only, formatting
    is idempotent: a second run writes the text that the first run wrote,
    and neither run calls the library. *)
Theorem format_comment_only_twice (p : path) (w : world) (t : text) :
  files w !! p = Some t ->
  Forall (fun ln => is_blank ln = true
                    \/ startswith (strip ln) [SLASH; SLASH] = true)
         (splitlines t) ->
  (let* _ := format_jsonc_file p in format_jsonc_file p) w
  = format_jsonc_file p w
  /\ calls (fst (format_jsonc_file p w)) = calls w.
Proof.
  intros Hp Hall. unfold bind.
  rewrite (format_comment_only p w t Hp Hall). split; [|done].
  rewrite (format_comment_only p _ (trim_text t)).
  - cbn [files calls stdout]. by rewrite insert_insert_eq, trim_text_idemp.
  - apply lookup_insert_eq.
  - by apply trim_text_comment_only.
Qed.

(** X11. A path without a file makes formatting raise at once, with the
    world unchanged; [main] reports it first among the failed files and
    returns 1, whatever the other paths are. *)
Theorem main_missing_file (p : path) (argv : list path) (w : world) :
  files w !! p = None ->
  format_jsonc_file p w = (w, None)
  /\ head (failures (p :: argv) w) = Some p
  /\ snd (Jsonc.main (p :: argv) w) = Some 1%nat.
Proof.
  intros Hp.
  assert (format_jsonc_file p w = (w, None)) as H
    by by rewrite format_jsonc_file_text, Hp.
  split; [done|]. split.
  - cbn [failures]. by rewrite H.
  - unfold Jsonc.main, bind. rewrite main_loop_spec. cbn [app failures].
    rewrite H. unfold print, ret. rewrite print_all_spec. done.
Qed.

End PassThrough.

Lemma format_comment_only_twice_witness :
  let w := World {[demo_path := jsonc_comments]} [] [] in
  files w !! demo_path = Some jsonc_comments
  /\ Forall (fun ln => is_blank ln = true
                       \/ startswith (strip ln) [SLASH; SLASH] = true)
            (splitlines jsonc_comments)
  /\ (let* _ := @format_jsonc_file RefJson.ref_json demo_path in
      @format_jsonc_file RefJson.ref_json demo_path) w
     = @format_jsonc_file RefJson.ref_json demo_path w.
Proof.
  assert (Forall (fun ln => is_blank ln = true
                       \/ startswith (strip ln) [SLASH; SLASH] = true)
            (splitlines jsonc_comments)) as Hall.
  { assert (splitlines jsonc_comments = [str "  // only"; []; str "//x  "])
      as -> by (vm_compute; done).
    repeat first
      [ apply Forall_nil_2
      | apply Forall_cons_2;
        [first [left; vm_compute; reflexivity
               | right; vm_compute; reflexivity]|] ]. }
  split; [apply lookup_singleton_eq|]. split; [exact Hall|].
  exact (proj1 (@format_comment_only_twice RefJson.ref_json demo_path
                  (World {[demo_path := jsonc_comments]} [] [])
                  jsonc_comments
                  (lookup_singleton_eq demo_path jsonc_comments) Hall)).
Defined.

Lemma main_missing_file_witness :
  files two_files !! str "none.jsonc" = None
  /\ snd (@Jsonc.main RefJson.ref_json [str "none.jsonc"; demo_path] two_files)
     = Some 1%nat.
Proof.
  assert (files two_files !! str "none.jsonc" = None) as H
    by (vm_compute; reflexivity).
  split; [exact H|].
  exact (proj2 (proj2 (@main_missing_file RefJson.ref_json (str "none.jsonc")
                         [demo_path] two_files H))).
Defined.

(** ** The YAML script *)

Section YamlMore.

Lemma splitlines_strip_text t :
  splitlines (strip_text t)
  = match map rstrip (splitlines t) with
    | [] => [[]]
    | l :: ls => l :: ls
    end.
Proof.
  unfold strip_text.
  assert (Forall one_line (map rstrip (splitlines t))) as H.
  { apply Forall_map. eapply Forall_impl; [apply splitlines_one_line|].
    apply one_line_rstrip. }
  destruct (map rstrip _) as [|l ls]; [done|].
  rewrite (join_LF_file_of (l :: ls)) by done. by apply splitlines_file_of.
Qed.

Lemma strip_text_idemp t : strip_text (strip_text t) = strip_text t.
Proof.
  unfold strip_text at 1. rewrite splitlines_strip_text. unfold strip_text.
  destruct (map rstrip (splitlines t)) as [|l ls] eqn:E; [done|].
  rewrite <- E, map_map. f_equal. f_equal.
  apply map_ext. intros. apply rstrip_idemp.
Qed.

(** X12. [strip_trailing_whitespace] is idempotent, and no line of the
    text it writes ends with white space. *)
Theorem strip_trailing_whitespace_idempotent (p : path) (w : world) :
  (let* _ := strip_trailing_whitespace p in strip_trailing_whitespace p) w
  = strip_trailing_whitespace p w
  /\ (forall t, files w !! p = Some t ->
        exists t',
          files (fst (strip_trailing_whitespace p w)) !! p = Some t'
          /\ Forall (fun l => rstrip l = l) (splitlines t')).
Proof.
  unfold strip_trailing_whitespace, bind, read_text, write_text. split.
  - destruct (files w !! p) as [t|] eqn:E; [|done].
    cbn [files calls stdout]. rewrite lookup_insert_eq.
    cbn [files calls stdout].
    by rewrite insert_insert_eq, strip_text_idemp.
  - intros t ->. cbn [fst files]. rewrite lookup_insert_eq.
    eexists; split; [done|]. rewrite splitlines_strip_text.
    assert (Forall (fun l => rstrip l = l) (map rstrip (splitlines t))) as H.
    { apply Forall_map, Forall_true. intros l. apply rstrip_idemp. }
    destruct (map rstrip _); [|done]. by repeat constructor.
Qed.

Lemma squeeze_content lines : forall b,
  List.filter (fun ln => negb (is_blank ln)) (squeeze b lines)
  = map normalize_line (List.filter (fun ln => negb (is_blank ln)) lines).
Proof.
  induction lines as [|ln lines IH]; intros b; cbn [squeeze List.filter]; [done|].
  destruct (is_blank ln) eqn:E; cbn [negb].
  - destruct b; cbn [List.filter]; rewrite ?E; cbn [negb]; apply IH.
  - cbn [List.filter map]. rewrite is_blank_normalize, E. cbn [negb].
    by rewrite IH.
Qed.

Lemma squeeze_no_blank_run lines : forall b,
  no_blank_run b (squeeze b lines) = true.
Proof.
  induction lines as [|ln lines IH]; intros b; cbn [squeeze]; [done|].
  destruct (is_blank ln) eqn:E.
  - destruct b; [apply IH|]. cbn [no_blank_run]. rewrite E. cbn [negb andb].
    apply IH.
  - cbn [no_blank_run]. rewrite is_blank_normalize, E. apply IH.
Qed.

Lemma squeeze_length lines : forall b,
  (length (squeeze b lines) <= length lines)%nat.
Proof.
  induction lines as [|ln lines IH]; intros b; cbn [squeeze length]; [done|].
  pose proof (IH true). pose proof (IH false).
  destruct (is_blank ln); [destruct b|]; cbn [length]; lia.
Qed.

(** X13. [compress_comments] keeps the lines that are not blank, in their
    order, with only the comment lines stripped; the lines it keeps never
    start with a blank line nor hold two blank lines in a row, and are
    never more than the lines it read. *)
Theorem compress_lines_content (lines : list text) :
  List.filter (fun ln => negb (is_blank ln)) (compress_lines lines)
  = map normalize_line (List.filter (fun ln => negb (is_blank ln)) lines)
  /\ no_blank_run true (compress_lines lines) = true
  /\ (length (compress_lines lines) <= length lines)%nat.
Proof.
  rewrite compress_lines_spec. unfold compress_spec.
  split; [apply squeeze_content|].
  split; [apply squeeze_no_blank_run|apply squeeze_length].
Qed.

Context {lib : YamlLib}.
Variable in_workflows : path -> bool.

(** X14. When a file that is not empty loads as no document at all,
    [format_file] dumps that empty document over the file: what the file
    holds afterwards is the dump of [None] without trailing white space,
    whatever the file held before. *)
Theorem format_file_overwrites_empty_document (p : path) (w : world)
    (t : text) :
  files w !! p = Some t -> t <> [] ->
  yaml_load (if in_workflows p then t else compress_text t) = Some None ->
  format_file in_workflows p w =
    (World (<[p := strip_text (yaml_dump None)]> (files w))
           (calls w ++ [CallLoad (if in_workflows p then t
                                  else compress_text t);
                        CallDump (yaml_dump None)])
           (stdout w),
     Some tt).
Proof.
  intros Hp Ht Hload.
  unfold format_file, bind, read_text. rewrite Hp.
  destruct t as [|c t]; [done|].
  unfold compress_comments, load_file, dump_file, strip_trailing_whitespace,
    or_raise, bind, ret, raise, read_text, write_text, log_call.
  destruct (in_workflows p); cbn [negb]; cbv beta iota zeta;
    cbn [files calls stdout]; rewrite ?Hp; cbv beta iota zeta;
    cbn [files calls stdout]; rewrite ?lookup_insert_eq;
    cbv beta iota zeta; cbn [files calls stdout]; rewrite Hload;
    cbv beta iota zeta; cbn [files calls stdout];
    rewrite ?lookup_insert_eq; cbv beta iota zeta;
    cbn [files calls stdout]; rewrite ?insert_insert_eq, <- ?app_assoc;
    done.
Qed.

Lemma keeps_ret {A} q (a : A) : keeps q (ret a).
Proof. by intros w. Qed.

Lemma keeps_raise {A} q : keeps q (@raise A).
Proof. by intros w. Qed.

Lemma keeps_bind {A B} q (m : io A) (k : A -> io B) :
  keeps q m -> (forall a, keeps q (k a)) -> keeps q (bind m k).
Proof.
  intros Hm Hk w. unfold bind. destruct (Hm w) as [H1 H2].
  destruct (m w) as [w' [a|]]; cbn [fst] in *; [|done].
  destruct (Hk a w') as [H3 H4]. split; congruence.
Qed.

Lemma keeps_read q p : keeps q (read_text p).
Proof. intros w. unfold read_text. by destruct (files w !! p). Qed.

Lemma keeps_write q p t : p <> q -> keeps q (write_text p t).
Proof. intros Hpq w. cbn. by rewrite lookup_insert_ne. Qed.

Lemma keeps_log q c : keeps q (log_call c).
Proof. by intros w. Qed.

Lemma keeps_or_raise {A} q (o : option A) : keeps q (or_raise o).
Proof. destruct o; [apply keeps_ret|apply keeps_raise]. Qed.

Lemma keeps_format_file q p : p <> q -> keeps q (format_file in_workflows p).
Proof.
  intros Hpq. unfold format_file.
  apply keeps_bind; [apply keeps_read|]. intros [|c t]; [apply keeps_ret|].
  apply keeps_bind.
  { destruct (negb (in_workflows p)); [|apply keeps_ret].
    apply keeps_bind; [apply keeps_read|]. intros. by apply keeps_write. }
  intros _. apply keeps_bind.
  { apply keeps_bind; [apply keeps_read|]. intros.
    apply keeps_bind; [apply keeps_log|]. intros. apply keeps_or_raise. }
  intros [d|]; [apply keeps_ret|].
  apply keeps_bind.
  { apply keeps_bind; [apply keeps_log|]. intros. by apply keeps_write. }
  intros _. apply keeps_bind; [apply keeps_read|]. intros.
  by apply keeps_write.
Qed.

(** X15. The YAML script rewrites only the files it is given: a file whose
    path is not among the arguments is left as it was, and nothing is
    printed, whether or not the loop ends with an exception. *)
Theorem yaml_main_frame (paths : list path) (q : path) (w : world) :
  q ∉ paths ->
  files (fst (Yaml.main in_workflows paths w)) !! q = files w !! q
  /\ stdout (fst (Yaml.main in_workflows paths w)) = stdout w.
Proof.
  intros Hq. revert w.
  change (keeps q (Yaml.main in_workflows paths)).
  induction paths as [|p paths IH]; [apply keeps_ret|].
  apply not_elem_of_cons in Hq as [Hqp Hq]. cbn [Yaml.main].
  apply keeps_bind; [by apply keeps_format_file|]. intros _. by apply IH.
Qed.

Lemma format_file_tree (p : path) (w : world) (t : text) (d : document) :
  files w !! p = Some t -> t <> [] -> in_workflows p = false ->
  yaml_load (compress_text t) = Some (Some d) ->
  format_file in_workflows p w =
    (World (<[p := compress_text t]> (files w))
           (calls w ++ [CallLoad (compress_text t)]) (stdout w), Some tt).
Proof.
  intros Hp Ht Hw Hload.
  unfold format_file, bind, read_text. rewrite Hp, Hw.
  destruct t as [|c t]; [done|]. cbn [negb].
  unfold compress_comments, load_file, or_raise, bind, ret, read_text,
    write_text, log_call. cbn [files calls stdout].
  rewrite Hp. cbn [files calls stdout]. rewrite lookup_insert_eq.
  cbn [files calls stdout]. by rewrite Hload.
Qed.

Lemma compress_text_nonempty t : compress_text t <> [].
Proof. unfold compress_text. by destruct (join _ _). Qed.

(** X16. For a document that loads as a tree both before and after, a
    second run of [format_file] leaves the file as the first run wrote
    it. *)
Theorem format_file_twice_same_file (p : path) (w : world) (t : text)
    (d : document) :
  files w !! p = Some t -> t <> [] -> in_workflows p = false ->
  yaml_load (compress_text t) = Some (Some d) ->
  files (fst ((let* _ := format_file in_workflows p in
               format_file in_workflows p) w))
  = files (fst (format_file in_workflows p w)).
Proof.
  intros Hp Ht Hw Hload. unfold bind.
  rewrite (format_file_tree p w t d Hp Ht Hw Hload).
  rewrite (format_file_tree p _ (compress_text t) d).
  - cbn [fst files]. by rewrite compress_text_idemp, insert_insert_eq.
  - apply lookup_insert_eq.
  - apply compress_text_nonempty.
  - done.
  - by rewrite compress_text_idemp.
Qed.

End YamlMore.

Lemma format_file_overwrites_empty_document_witness :
  let w := World {[demo_path := yaml_comment_only]} [] [] in
  files w !! demo_path = Some yaml_comment_only
  /\ yaml_comment_only <> []
  /\ RefYaml.ref_load (compress_text yaml_comment_only) = Some None
  /\ files (fst (@format_file RefYaml.ref_yaml (fun _ => false) demo_path w))
       !! demo_path
     = Some (file_of [str "null"; str "..."]).
Proof.
  assert (RefYaml.ref_load (compress_text yaml_comment_only) = Some None)
    as Hload by (vm_compute; reflexivity).
  split; [apply lookup_singleton_eq|]. split; [done|]. split; [exact Hload|].
  rewrite (@format_file_overwrites_empty_document RefYaml.ref_yaml
             (fun _ => false) demo_path
             (World {[demo_path := yaml_comment_only]} [] [])
             yaml_comment_only
             (lookup_singleton_eq demo_path yaml_comment_only)
             ltac:(done) Hload).
  cbn [fst files]. rewrite lookup_insert_eq. vm_compute. reflexivity.
Defined.

Lemma yaml_main_frame_witness :
  (demo_path ∉ [bad_path])
  /\ files (fst (@Yaml.main RefYaml.ref_yaml (fun _ => false) [bad_path]
                   two_yaml_files)) !! demo_path
     = files two_yaml_files !! demo_path.
Proof.
  assert (demo_path ∉ [bad_path]) as H.
  { apply not_elem_of_cons. split; [done|apply not_elem_of_nil]. }
  split; [exact H|].
  exact (proj1 (@yaml_main_frame RefYaml.ref_yaml (fun _ => false)
                  [bad_path] demo_path two_yaml_files H)).
Defined.

Lemma format_file_twice_same_file_witness :
  let w := World {[demo_path := yaml_pair]} [] [] in
  files w !! demo_path = Some yaml_pair
  /\ yaml_pair <> []
  /\ RefYaml.ref_load (compress_text yaml_pair)
     = Some (Some [(str "a", str "1")])
  /\ files (fst (bind (@format_file RefYaml.ref_yaml (fun _ => false)
                          demo_path)
                    (fun _ => @format_file RefYaml.ref_yaml (fun _ => false)
                                demo_path) w))
     = files (fst (@format_file RefYaml.ref_yaml (fun _ => false) demo_path w)).
Proof.
  assert (RefYaml.ref_load (compress_text yaml_pair)
          = Some (Some [(str "a", str "1")])) as Hload
    by (vm_compute; reflexivity).
  split; [apply lookup_singleton_eq|]. split; [done|]. split; [exact Hload|].
  exact (@format_file_twice_same_file RefYaml.ref_yaml (fun _ => false)
           demo_path (World {[demo_path := yaml_pair]} [] []) yaml_pair
           [(str "a", str "1")]
           (lookup_singleton_eq demo_path yaml_pair) ltac:(done) eq_refl
           Hload).
Defined.

(** ** More on extraction and reinjection *)

Section IndexMore.

Lemma fold_extract_bottom lines : forall st,
  in_obj st = true ->
  Forall (fun l => fst (split_content_and_comment l) = []) lines ->
  fold_left extract_step lines st
  = ExtractState (top st) (leading st) (inline st)
                 (cur_comments st ++ map strip lines) (path_stack st) true.
Proof.
  induction lines as [|l ls IH]; intros st Hst Hall; cbn [fold_left map].
  - rewrite app_nil_r, <- Hst. by destruct st.
  - inversion Hall as [|? ? Hl Hls]; subst.
    assert (extract_step st l
            = ExtractState (top st) (leading st) (inline st)
                           (cur_comments st ++ [strip l]) (path_stack st)
                           (in_obj st)) as ->.
    { unfold extract_step.
      destruct (split_content_and_comment l) as [content comment].
      cbn [fst] in Hl. subst content. cbn [nonempty negb].
      by rewrite Hst. }
    rewrite IH by done. cbn [top leading inline cur_comments path_stack].
    by rewrite <- app_assoc.
Qed.

(** X17. Blank lines and comment lines that follow the last structural
    line of an opened object are filed, stripped and in their order, at the
    end of the bottom comments; the rest of the index is unchanged. *)
Theorem extract_comments_bottom (pre post : list text) (l : text) :
  l ∈ pre ->
  startswith (fst (split_content_and_comment l)) [LBRACE] = true ->
  Forall (fun l => is_blank l = true
                   \/ startswith (strip l) [SLASH; SLASH] = true) post ->
  extract_comments (pre ++ post)
  = ((extract_comments pre).1.1.1, (extract_comments pre).1.1.2,
     (extract_comments pre).1.2, (extract_comments pre).2 ++ map strip post).
Proof.
  intros Hl Hopen Hpost. unfold extract_comments. cbn [fst snd].
  rewrite fold_left_app.
  rewrite (fold_extract_bottom post).
  - done.
  - apply list_elem_of_split in Hl as (l1 & l2 & ->).
    rewrite fold_left_app. cbn [fold_left].
    apply fold_extract_in_obj. by apply extract_step_opens.
  - eapply Forall_impl; [exact Hpost|]. apply comment_only_content.
Qed.

Lemma extract_comments_bottom_witness :
  str "{" ∈ [str "{"; str "  'a': 1"; str "}"]
  /\ startswith (fst (split_content_and_comment (str "{"))) [LBRACE] = true
  /\ Forall (fun l => is_blank l = true
                      \/ startswith (strip l) [SLASH; SLASH] = true)
            [str "  // end "]
  /\ (extract_comments ([str "{"; str "  'a': 1"; str "}"]
                          ++ [str "  // end "])).2
     = [str "// end"].
Proof.
  assert (str "{" ∈ [str "{"; str "  'a': 1"; str "}"]) as H1
    by (apply list_elem_of_In; left; reflexivity).
  assert (startswith (fst (split_content_and_comment (str "{"))) [LBRACE]
          = true) as H2 by reflexivity.
  assert (Forall (fun l => is_blank l = true
                      \/ startswith (strip l) [SLASH; SLASH] = true)
            [str "  // end "]) as H3.
  { apply Forall_cons_2; [right; vm_compute; reflexivity|apply Forall_nil_2]. }
  split; [exact H1|]. split; [exact H2|]. split; [exact H3|].
  rewrite (extract_comments_bottom _ _ _ H1 H2 H3). vm_compute. reflexivity.
Defined.

Lemma KEY_RE_match_not_brace s key :
  KEY_RE_match s = Some key ->
  nonempty s = true /\ startswith s [LBRACE] = false
  /\ startswith s [RBRACE] = false.
Proof.
  unfold KEY_RE_match. destruct s as [|c s]; [done|]. cbn [lstrip].
  intros H. split; [done|]. unfold startswith.
  destruct (isspace c) eqn:E.
  - split; rewrite andb_true_r; apply N.eqb_neq; by intros <-.
  - destruct (c =? DQUOTE) eqn:Eq; [|done]. apply N.eqb_eq in Eq as ->. done.
Qed.

(** X18. Inside an opened object, a block of comment lines directly above a
    key line is filed as the leading comments of that key, under the path
    made of the open keys and the key itself, each line stripped; no
    comment stays pending after the key line. *)
Theorem extract_leading_block (st : extract_state) (block : list text)
    (key_line key : text) :
  in_obj st = true -> cur_comments st = [] -> block <> [] ->
  Forall (fun l => is_blank l = true
                   \/ startswith (strip l) [SLASH; SLASH] = true) block ->
  KEY_RE_match (fst (split_content_and_comment key_line)) = Some key ->
  leading (fold_left extract_step (block ++ [key_line]) st)
    !! full_path (path_stack st) key = Some (map strip block)
  /\ cur_comments (fold_left extract_step (block ++ [key_line]) st) = [].
Proof.
  intros Hin Hcur Hne Hblock Hkey.
  rewrite fold_left_app.
  rewrite (fold_extract_bottom block st Hin)
    by (eapply Forall_impl; [exact Hblock|]; apply comment_only_content).
  rewrite Hcur. cbn [app fold_left]. unfold extract_step.
  destruct (split_content_and_comment key_line) as [content comment].
  cbn [fst] in Hkey.
  destruct (KEY_RE_match_not_brace _ _ Hkey) as (H1 & H2 & H3).
  rewrite H1, H2, H3, Hkey. cbn [negb path_stack cur_comments leading].
  destruct (map strip block) as [|b bs] eqn:E.
  { by destruct block. }
  cbn [leading cur_comments]. by rewrite lookup_insert_eq.
Qed.

Lemma extract_leading_block_witness :
  let st := ExtractState [] ∅ ∅ [] [str "a"] true in
  Forall (fun l => is_blank l = true
                   \/ startswith (strip l) [SLASH; SLASH] = true)
         [str "    // about b"]
  /\ KEY_RE_match (fst (split_content_and_comment (str "    'b': 1 // x")))
     = Some (str "b")
  /\ leading (fold_left extract_step
                ([str "    // about b"] ++ [str "    'b': 1 // x"]) st)
       !! str "a.b" = Some [str "// about b"].
Proof.
  assert (Forall (fun l => is_blank l = true
                   \/ startswith (strip l) [SLASH; SLASH] = true)
            [str "    // about b"]) as H1.
  { apply Forall_cons_2; [right; vm_compute; reflexivity|apply Forall_nil_2]. }
  assert (KEY_RE_match (fst (split_content_and_comment (str "    'b': 1 // x")))
          = Some (str "b")) as H2 by (vm_compute; reflexivity).
  split; [exact H1|]. split; [exact H2|].
  exact (proj1 (extract_leading_block (ExtractState [] ∅ ∅ [] [str "a"] true)
                  [str "    // about b"] (str "    'b': 1 // x") (str "b")
                  eq_refl eq_refl ltac:(done) H1 H2)).
Defined.

Lemma nonblank_prefix l o :
  l `prefix_of` o -> nonempty (strip l) = true -> nonempty (strip o) = true.
Proof.
  intros [k ->] Hl.
  destruct (nonempty (strip (l ++ k))) eqn:E; [done|].
  assert (is_blank (l ++ k) = true) as Hb by (unfold is_blank; by rewrite E).
  apply blank_all_spaces in Hb. rewrite forallb_app in Hb.
  apply andb_prop in Hb as [Hb _].
  apply isspace_all_lstrip in Hb. unfold strip in Hl. by rewrite Hb in Hl.
Qed.

Lemma reinject_step_ext leading inline out stack line :
  exists ins o,
    fst (reinject_step leading inline (out, stack) line) = out ++ ins ++ [o]
    /\ kept_as inline line o.
Proof.
  unfold reinject_step.
  destruct (startswith (strip line) [RBRACE]); cbn [fst].
  { exists [], line. split; [done|by left]. }
  destruct (KEY_RE_match line) as [key|] eqn:Ek; cbn [fst].
  2: { exists [], line. split; [done|by left]. }
  set (fp := join [DOT] (stack ++ [key])).
  exists (match leading !! fp with
          | Some cs => map (fun c => before DQUOTE line ++ strip c) cs
          | None => []
          end).
  destruct (inline !! fp) as [c|] eqn:E.
  - exists (line ++ [SPACE] ++ c). split; [|right; by exists stack, key, c].
    destruct (leading !! fp); [by rewrite <- app_assoc|done].
  - exists line. split; [|by left].
    destruct (leading !! fp); [by rewrite <- app_assoc|done].
Qed.

Lemma fold_reinject_ext leading inline lines : forall st,
  exists ext os,
    fst (fold_left (reinject_step leading inline) lines st) = fst st ++ ext
    /\ os `sublist_of` ext
    /\ Forall2 (kept_as inline) lines os.
Proof.
  induction lines as [|ln lines IH]; intros [out stack]; cbn [fold_left fst].
  - exists [], []. by rewrite app_nil_r.
  - destruct (reinject_step_ext leading inline out stack ln)
      as (ins & o & Hstep & Ho).
    destruct (IH (reinject_step leading inline (out, stack) ln))
      as (ext & os & Hfold & Hsub & Hall).
    exists (ins ++ [o] ++ ext), (o :: os).
    split; [by rewrite Hfold, Hstep, <- !app_assoc|].
    split; [|by constructor].
    apply sublist_inserts_l. by apply sublist_skip.
Qed.

Lemma filter_sublist (g : text -> bool) (l1 l2 : list text) :
  l1 `sublist_of` l2 -> List.filter g l1 `sublist_of` List.filter g l2.
Proof.
  induction 1 as [|x l1 l2 _ IH|x l1 l2 _ IH]; cbn [List.filter].
  - done.
  - destruct (g x); [by apply sublist_skip|done].
  - destruct (g x); [by apply sublist_cons|done].
Qed.

Lemma Forall2_filter_kept (R : text -> text -> Prop) (f g : text -> bool)
    (ls os : list text) :
  (forall l o, R l o -> f l = true -> g o = true) ->
  Forall2 R ls os ->
  exists os', Forall2 R (List.filter f ls) os'
              /\ os' `sublist_of` List.filter g os.
Proof.
  intros HR. induction 1 as [|l o ls os Hlo _ (os' & IH1 & IH2)].
  - by exists [].
  - cbn [List.filter]. destruct (f l) eqn:E.
    + exists (o :: os'). rewrite (HR l o Hlo E).
      split; [by constructor|by apply sublist_skip].
    + exists os'. split; [done|].
      destruct (g o); [by apply sublist_cons|done].
Qed.

Lemma kept_as_nonblank inline l o :
  kept_as inline l o -> nonempty (strip l) = true ->
  nonempty (strip o) = true.
Proof.
  intros [->|(stack & key & c & _ & _ & ->)]; [done|].
  apply nonblank_prefix. by eexists.
Qed.

(** X19. Reinjection never loses a line of the canonical text: the lines
    returned hold, in the order of the canonical text and each at a place
    of its own, every line of it that is not blank, as it stands or, for a
    key line, followed by a space and the inline comment held under a path
    ending with its key. *)
Theorem reinject_keeps_canonical_lines (top bottom : list text)
    (leading : gmap text (list text)) (inline : gmap text text)
    (opening closing : text) (formatted : list text) :
  head formatted = Some opening -> last formatted = Some closing ->
  exists kept,
    kept `sublist_of`
      reinject top leading inline bottom opening closing formatted
    /\ Forall2 (kept_as inline)
         (List.filter (fun ln => nonempty (strip ln)) formatted) kept.
Proof.
  intros Hh Hl. unfold reinject.
  destruct (fold_reinject_ext leading inline (removelast (tail formatted))
              (top ++ [opening], [])) as (ext & os & Hfold & Hsub & Hall).
  destruct (fold_left _ _ _) as [out stack]. cbn [fst] in Hfold. subst out.
  assert (exists os_all,
            os_all `sublist_of`
              (if decide (1 < length formatted)%nat
               then ((top ++ [opening]) ++ ext) ++ [closing]
               else (top ++ [opening]) ++ ext) ++ bottom
            /\ Forall2 (kept_as inline) formatted os_all)
    as (os_all & Hsub_all & Hall_all).
  { destruct formatted as [|a tl]; [done|]. injection Hh as ->.
    destruct tl as [|b tl].
    - cbn [tail removelast] in Hall. inversion Hall; subst.
      exists [opening]. split; [|constructor; [by left|constructor]].
      destruct (decide _) as [Hn|_]; [cbn [length] in Hn; lia|].
      apply sublist_inserts_r. rewrite <- app_assoc.
      apply sublist_inserts_l, sublist_inserts_r. done.
    - rewrite last_cons_cons in Hl. apply last_Some in Hl as [l' Hl'].
      cbn [tail] in Hall. rewrite Hl', removelast_last in Hall.
      exists (opening :: os ++ [closing]).
      split.
      + destruct (decide _) as [_|Hn].
        2: { cbn [length] in Hn. lia. }
        apply sublist_inserts_r. rewrite <- !app_assoc.
        apply sublist_inserts_l. cbn [app]. apply sublist_skip.
        apply sublist_app; [done|done].
      + rewrite Hl'. constructor; [by left|].
        apply Forall2_app; [done|]. constructor; [by left|constructor]. }
  destruct (Forall2_filter_kept (kept_as inline)
              (fun ln => nonempty (strip ln)) (fun ln => nonempty (strip ln))
              formatted os_all (kept_as_nonblank inline) Hall_all)
    as (kept & Hkept & Hsub').
  exists kept. split; [|done].
  etrans; [exact Hsub'|]. by apply filter_sublist.
Qed.

Lemma reinject_keeps_canonical_lines_witness :
  head nested_canonical = Some (str "{")
  /\ last nested_canonical = Some (str "}")
  /\ exists kept,
       kept `sublist_of`
         reinject [str "// head"] {[ str "c" := [str "// about c"] ]}
           {[ str "c" := str "// two" ]} [] (str "{") (str "}")
           nested_canonical
       /\ Forall2 (kept_as {[ str "c" := str "// two" ]})
            (List.filter (fun ln => nonempty (strip ln)) nested_canonical)
            kept.
Proof.
  split; [reflexivity|]. split; [reflexivity|].
  exact (reinject_keeps_canonical_lines [str "// head"] []
           {[ str "c" := [str "// about c"] ]} {[ str "c" := str "// two" ]}
           (str "{") (str "}") nested_canonical eq_refl eq_refl).
Defined.

End IndexMore.

Lemma strip_trailing_whitespace_idempotent_witness :
  let w := World {[demo_path := str "a: 1  " ++ [LF] ++ str "b: 2 "]} [] [] in
  files w !! demo_path = Some (str "a: 1  " ++ [LF] ++ str "b: 2 ")
  /\ exists t',
       files (fst (strip_trailing_whitespace demo_path w)) !! demo_path
       = Some t'
       /\ Forall (fun l => rstrip l = l) (splitlines t').
Proof.
  split; [apply lookup_singleton_eq|].
  exact (proj2 (strip_trailing_whitespace_idempotent demo_path
                  (World {[demo_path := str "a: 1  " ++ [LF] ++ str "b: 2 "]}
                         [] []))
           _ (lookup_singleton_eq demo_path _)).
Defined.
